(** * Thermal heatmap generator: a shallow embedding and its properties

    The development follows the two Python modules of the repository:
    [bezier.py] (closed Bezier curves through random points) and
    [thermal_heatmap_generator.py] (heat sources, curve rasterisation and
    the compositing pipeline).

    Numbers: NumPy's float64 values are read as real numbers ([R]), so
    rounding is not part of the model; Python integers are [Z] (or [nat]
    for counters that only grow from zero).  Arrays are lists, 2-D arrays
    lists of rows.  Exceptions are values of [result].  The process-wide
    random generator is a tape: the outcome of the [k]-th draw is given by
    a function of [k], and the position on the tape is threaded through
    the code as explicit state.  [scipy.ndimage.gaussian_filter] is a
    parameter of the pipeline; each property names what it needs of it. *)

From Stdlib Require Import Reals Lra Lia ZArith List Bool Arith.
From Stdlib Require Import Permutation Sorted.
From Equations Require Import Equations.
Import ListNotations.

Local Open Scope R_scope.

(** ** Exceptions *)

Inductive exn : Type :=
| ValueError
| IndexError
| ZeroDivisionError.

Inductive result (A : Type) : Type :=
| Ok (a : A)
| Raise (e : exn).

Arguments Ok {A} a.
Arguments Raise {A} e.

Definition bind {A B : Type} (m : result A) (f : A -> result B) : result B :=
  match m with
  | Ok a => f a
  | Raise e => Raise e
  end.

Notation "x <- m ;; k" := (bind m (fun x => k))
  (at level 61, m at next level, right associativity).

(** ** Comparisons on reals, as NumPy's boolean results *)

Definition Rgeb (x y : R) : bool := if Rge_dec x y then true else false.
Definition Rgtb (x y : R) : bool := if Rgt_dec x y then true else false.
Definition Rltb (x y : R) : bool := if Rlt_dec x y then true else false.

(** A boolean used as a number, as in [(ang >= 0) * ang]. *)
Definition B2R (b : bool) : R := if b then 1 else 0.

(** [int(x)] on a float: truncation towards zero. *)
Definition R_to_int (x : R) : Z :=
  if Rlt_dec x 0 then (- Int_part (- x))%Z else Int_part x.

(** [numpy.arctan2(y, x)] on reals. *)
Definition arctan2 (y x : R) : R :=
  if Rlt_dec 0 x then atan (y / x)
  else if Rlt_dec x 0 then
    (if Rle_dec 0 y then atan (y / x) + PI else atan (y / x) - PI)
  else if Rlt_dec 0 y then PI / 2
  else if Rlt_dec y 0 then - (PI / 2)
  else 0.

(** ** The random tape *)

Record Tape : Type := {
  (** outcome of [np.random.rand(n, 2)] when it is the [k]-th draw *)
  tape_rand : nat -> nat -> list (R * R);
  (** outcome of [np.random.randint(low, high)] at draw [k] *)
  tape_randint : nat -> Z -> Z -> Z;
  (** outcome of [np.random.uniform(low, high)] at draw [k] *)
  tape_uniform : nat -> R -> R -> R
}.

(** What NumPy guarantees about the draws. *)
Record tape_ok (tp : Tape) : Prop := {
  rand_length : forall k n, length (tape_rand tp k n) = n;
  rand_unit : forall k n q, In q (tape_rand tp k n) ->
      0 <= fst q < 1 /\ 0 <= snd q < 1;
  randint_range : forall k lo hi, (lo < hi)%Z ->
      (lo <= tape_randint tp k lo hi < hi)%Z;
  uniform_range : forall k lo hi, lo <= hi ->
      lo <= tape_uniform tp k lo hi <= hi
}.

(** ** bezier.py *)

Module bezier.

Abbreviation point := (R * R)%type (only parsing).

Definition padd (a b : point) : point := (fst a + fst b, snd a + snd b).
Definition psub (a b : point) : point := (fst a - fst b, snd a - snd b).
Definition pscale (c : R) (a : point) : point := (c * fst a, c * snd a).

(** [scipy.special.binom(n, k)] on non-negative integers: the binomial
    coefficient, which is 0 when [k] exceeds [n]. *)
Definition binom (n k : nat) : R :=
  if (k <=? n)%nat then C n k else 0.

(** [bernstein = lambda n, k, t: binom(n, k) * t**k * (1.0 - t) ** (n - k)] *)
Definition bernstein (n k : nat) (t : R) : R :=
  binom n k * t ^ k * (1 - t) ^ (n - k).

(** [np.linspace(start, stop, num)] *)
Definition linspace (start stop : R) (num : nat) : list R :=
  map (fun j => start + INR j * ((stop - start) / INR (num - 1))) (seq 0 num).

(** One row of the array [bezier] returns: the loop over the control
    points, at one parameter value. *)
Definition bezier_at (points : list point) (t : R) : point :=
  fold_left
    (fun curve ip =>
       padd curve
         (pscale (bernstein (length points - 1) (fst ip) t) (snd ip)))
    (combine (seq 0 (length points)) points)
    (0, 0).

Definition bezier (points : list point) (num : nat) : list point :=
  map (bezier_at points) (linspace 0 1 num).

(** The keyword arguments of [Segment] and [get_curve]. *)
Record kwargs : Type := {
  kw_numpoints : option nat;
  kw_r : option R
}.

Definition kw_get {A : Type} (o : option A) (default : A) : A :=
  match o with
  | Some v => v
  | None => default
  end.

Record Segment : Type := {
  p1 : point;
  p2 : point;
  angle1 : R;
  angle2 : R;
  numpoints : nat;
  r : R;
  p : list point;
  curve : list point
}.

(** [self.p[i, :] = v] *)
Fixpoint set_row {A : Type} (l : list A) (i : nat) (v : A) : list A :=
  match l, i with
  | [], _ => []
  | _ :: tl, O => v :: tl
  | x :: tl, S i' => x :: set_row tl i' v
  end.

Definition calc_intermediate_points (self : Segment) (r_arg : R) : Segment :=
  let p_1 := set_row (p self) 1
    (padd (p1 self) (r self * cos (angle1 self), r self * sin (angle1 self))) in
  let p_2 := set_row p_1 2
    (padd (p2 self)
       (r self * cos (angle2 self + PI), r self * sin (angle2 self + PI))) in
  {| p1 := p1 self; p2 := p2 self;
     angle1 := angle1 self; angle2 := angle2 self;
     numpoints := numpoints self; r := r self;
     p := p_2;
     curve := bezier p_2 (numpoints self) |}.

(** [Segment.__init__] *)
Definition Segment_init (p1 p2 : point) (angle1 angle2 : R) (kw : kwargs)
  : Segment :=
  let numpoints := kw_get (kw_numpoints kw) 100%nat in
  let r := kw_get (kw_r kw) (3 / 10) in
  let d := sqrt ((fst p2 - fst p1) ^ 2 + (snd p2 - snd p1) ^ 2) in
  let self_r := r * d in
  let self_p := set_row (set_row (repeat (0, 0) 4) 0 p1) 3 p2 in
  calc_intermediate_points
    {| p1 := p1; p2 := p2; angle1 := angle1; angle2 := angle2;
       numpoints := numpoints; r := self_r; p := self_p; curve := [] |}
    self_r.

(** A row [(x, y, angle)] of the augmented point array. *)
Abbreviation apoint := (R * R * R)%type (only parsing).
Definition xy (a : apoint) : point := fst a.
Definition ang_of (a : apoint) : R := snd a.

(** The loop of [get_curve]: one segment per consecutive pair of rows. *)
Fixpoint get_segments (points : list apoint) (kw : kwargs) : list Segment :=
  match points with
  | a :: tl =>
      match tl with
      | b :: _ =>
          Segment_init (xy a) (xy b) (ang_of a) (ang_of b) kw
          :: get_segments tl kw
      | [] => []
      end
  | [] => []
  end.

(** [np.concatenate] refuses an empty list of arrays. *)
Definition np_concatenate {A : Type} (ls : list (list A)) : result (list A) :=
  match ls with
  | [] => Raise ValueError
  | _ => Ok (concat ls)
  end.

Definition get_curve (points : list apoint) (kw : kwargs)
  : result (list Segment * list point) :=
  let segments := get_segments points kw in
  curve <- np_concatenate (map curve segments) ;;
  Ok (segments, curve).

Definition Rsum (l : list R) : R := fold_right Rplus 0 l.

(** [np.mean(p, axis=0)] *)
Definition mean_axis0 (p : list point) : point :=
  (Rsum (map fst p) / INR (length p), Rsum (map snd p) / INR (length p)).

(** Sorting by a real key; [p[np.argsort(s), :]] with ties kept in
    their input order. *)
Fixpoint insert_by {A : Type} (key : A -> R) (x : A) (l : list A) : list A :=
  match l with
  | [] => [x]
  | y :: tl =>
      if Rle_dec (key x) (key y) then x :: y :: tl
      else y :: insert_by key x tl
  end.

Definition sort_by {A : Type} (key : A -> R) (l : list A) : list A :=
  fold_right (insert_by key) [] l.

Definition ccw_sort (p : list point) : list point :=
  let m := mean_axis0 p in
  let s := fun q => arctan2 (fst (psub q m)) (snd (psub q m)) in
  sort_by s p.

(** [np.diff(a, axis=0)] *)
Fixpoint diff (a : list point) : list point :=
  match a with
  | x :: tl =>
      match tl with
      | y :: _ => psub y x :: diff tl
      | [] => []
      end
  | [] => []
  end.

(** [np.roll(ang, 1)] *)
Definition roll1 (l : list R) : list R :=
  match l with
  | [] => []
  | _ => last l 0 :: removelast l
  end.

(** [a[0]] on a possibly empty array *)
Definition first_row {A : Type} (l : list A) : result A :=
  match l with
  | [] => Raise IndexError
  | x :: _ => Ok x
  end.

Fixpoint zip_with {A B C : Type} (f : A -> B -> C) (l : list A) (m : list B)
  : list C :=
  match l, m with
  | x :: l', y :: m' => f x y :: zip_with f l' m'
  | _, _ => []
  end.

Definition get_bezier_curve (a : list point) (rad edgy : R)
  : result (list R * list R * list apoint) :=
  let p := atan edgy / PI + 5 / 10 in
  let a := ccw_sort a in
  a0 <- first_row a ;;
  let a := a ++ [a0] in
  let d := diff a in
  let ang := map (fun v => arctan2 (snd v) (fst v)) d in
  let f := fun ang =>
    B2R (Rgeb ang 0) * ang + B2R (Rltb ang 0) * (ang + 2 * PI) in
  let ang := map f ang in
  let ang1 := ang in
  let ang2 := roll1 ang in
  let ang :=
    zip_with
      (fun a1 a2 => p * a1 + (1 - p) * a2 + B2R (Rgtb (Rabs (a2 - a1)) PI) * PI)
      ang1 ang2 in
  ang0 <- first_row ang ;;
  let ang := ang ++ [ang0] in
  let a := combine a ang in
  sc <- get_curve a {| kw_numpoints := None; kw_r := Some rad |} ;;
  let c := snd sc in
  Ok (map fst c, map snd c, a).

(** [mindst or 0.7 / n] *)
Definition mindst_or_default (mindst : option R) (n : Z) : result R :=
  let default :=
    if (n =? 0)%Z then Raise ZeroDivisionError else Ok (7 / 10 / IZR n) in
  match mindst with
  | None => default
  | Some m => if Req_dec_T m 0 then default else Ok m
  end.

(** [np.random.rand(n, 2)] at position [k] of the tape. *)
Definition np_random_rand (tp : Tape) (k : nat) (n : Z) : result (list point) :=
  if (n <? 0)%Z then Raise ValueError else Ok (tape_rand tp k (Z.to_nat n)).

(** [np.sqrt(np.sum(np.diff(ccw_sort(a), axis=0) ** 2, axis=1))] *)
Definition sorted_distances (a : list point) : list R :=
  map (fun v => sqrt (fst v ^ 2 + snd v ^ 2)) (diff (ccw_sort a)).

(** [np.all(d >= mindst)] *)
Definition all_ge (d : list R) (mindst : R) : bool :=
  forallb (fun x => Rgeb x mindst) d.

(** [get_random_points]; the state is the position on the tape. *)
#[local] Arguments Nat.sub : simpl never.

Equations? get_random_points (tp : Tape) (n : Z) (scale : R)
    (mindst : option R) (rec : nat) (k : nat)
  : result (list point * nat) by wf (200 - rec)%nat lt :=
  get_random_points tp n scale mindst rec k
    with mindst_or_default mindst n => {
    | Raise e => Raise e
    | Ok m with np_random_rand tp k n => {
      | Raise e => Raise e
      | Ok a with all_ge (sorted_distances a) m => {
        | true => Ok (map (pscale scale) a, S k)
        | false with le_lt_dec 200 rec => {
          | left _ => Ok (map (pscale scale) a, S k)
          | right _ =>
              get_random_points tp n scale (Some m) (S rec) (S k) } } } }.
Proof. lia. Qed.

End bezier.

(** ** thermal_heatmap_generator.py *)

Module thermal_heatmap_generator.

Import bezier.

(** A 2-D float array, as its list of rows. *)
Definition buffer : Type := list (list R).

(** [heatmap.shape[0]] and [heatmap.shape[1]].  An array without rows
    keeps no row to measure; every use of [shape1] below is guarded by a
    test against [shape0]. *)
Definition shape0 (b : buffer) : Z := Z.of_nat (length b).
Definition shape1 (b : buffer) : Z :=
  match b with
  | [] => 0%Z
  | row :: _ => Z.of_nat (length row)
  end.

(** The array of [h] rows of [w] zeros. *)
Definition zeros (h w : nat) : buffer := repeat (repeat 0 w) h.

(** [np.zeros((height, width))]: negative dimensions are refused. *)
Definition np_zeros (height width : Z) : result buffer :=
  if ((height <? 0) || (width <? 0))%Z then Raise ValueError
  else Ok (zeros (Z.to_nat height) (Z.to_nat width)).

(** [np.zeros_like(heatmap)] *)
Definition np_zeros_like (heatmap : buffer) : buffer :=
  map (map (fun _ => 0)) heatmap.

(** Python's resolution of one bound of [a[start:stop]] on an axis of
    length [len]: negative bounds count from the end, and every bound is
    clipped to the axis. *)
Definition slice_bound (i len : Z) : Z :=
  if (i <? 0)%Z then Z.max (i + len) 0 else Z.min i len.

Definition in_slice (start stop len i : Z) : bool :=
  ((slice_bound start len <=? i) && (i <? slice_bound stop len))%Z.

Fixpoint mapi_from {A B : Type} (f : Z -> A -> B) (i : Z) (l : list A)
  : list B :=
  match l with
  | [] => []
  | x :: tl => f i x :: mapi_from f (i + 1)%Z tl
  end.

(** [b[r0:r1, c0:c1] = v] *)
Definition assign_slice2 (b : buffer) (r0 r1 c0 c1 : Z) (v : R) : buffer :=
  mapi_from
    (fun i row =>
       if in_slice r0 r1 (shape0 b) i then
         mapi_from
           (fun j old =>
              if in_slice c0 c1 (Z.of_nat (length row)) j then v else old)
           0%Z row
       else row)
    0%Z b.

(** [b[yi, xi] = v], for indices already checked against the shape. *)
Definition assign_pixel (b : buffer) (yi xi : Z) (v : R) : buffer :=
  mapi_from
    (fun i row =>
       if (i =? yi)%Z then
         mapi_from (fun j old => if (j =? xi)%Z then v else old) 0%Z row
       else row)
    0%Z b.

Definition buffer_map (f : R -> R) (b : buffer) : buffer := map (map f) b.

(** Elementwise sum of two arrays of one shape. *)
Definition buffer_add (a b : buffer) : buffer :=
  zip_with (zip_with Rplus) a b.

(** [b.max()]: a reduction of an array without elements is refused. *)
Definition buffer_max (b : buffer) : result R :=
  match concat b with
  | [] => Raise ValueError
  | x :: tl => Ok (fold_left Rmax tl x)
  end.

(** [np.clip(v, 0, 255)] and [astype(np.uint8)] on one element. *)
Definition np_clip (lo hi v : R) : R := Rmin hi (Rmax v lo).
Definition astype_uint8 (v : R) : Z := (R_to_int v mod 256)%Z.

(** [np.random.randint(low, high)] and [np.random.uniform(low, high)] at
    position [k] of the tape. *)
Definition np_random_randint (tp : Tape) (k : nat) (low high : Z) : result Z :=
  if (low <? high)%Z then Ok (tape_randint tp k low high) else Raise ValueError.

Definition np_random_uniform (tp : Tape) (k : nat) (low high : R) : R :=
  tape_uniform tp k low high.

Section Pipeline.

(** [scipy.ndimage.gaussian_filter(input, sigma)] *)
Variable gaussian_filter : buffer -> R -> buffer.

(** The buffer [generate_heat_source] hands to the filter. *)
Definition heat_source_stamp (heatmap : buffer) (x y : Z) (intensity : R)
    (size : Z) : buffer :=
  let heat_source := np_zeros_like heatmap in
  assign_slice2 heat_source
    (y - size / 2) (y + size / 2 + 1) (x - size / 2) (x + size / 2 + 1)
    intensity.

Definition generate_heat_source (heatmap : buffer) (x y : Z) (intensity : R)
    (size : Z) (spread_sigma : R) : result buffer :=
  let heat_source := heat_source_stamp heatmap x y intensity size in
  Ok (gaussian_filter heat_source spread_sigma).

(** The body of the inner loop of [add_random_edges].  The integer
    [edge_intensity] is stored into a float array; [IZR edge_intensity] is
    the element written for every integer a float64 holds exactly (up to
    2^53 in absolute value, the compositor's 128 among them). *)
Definition plot_sample (heatmap : buffer) (edge_intensity : Z)
    (edges_map : buffer) (xy : R * R) : buffer :=
  let xi := R_to_int (fst xy) in
  let yi := R_to_int (snd xy) in
  if ((0 <=? xi) && (xi <? shape1 heatmap)
      && ((0 <=? yi) && (yi <? shape0 heatmap)))%Z
  then assign_pixel edges_map yi xi (IZR edge_intensity)
  else edges_map.

(** The point set one iteration of [add_random_edges] draws. *)
Definition edge_points (tp : Tape) (heatmap : buffer) (num_points : Z)
    (k : nat) : result (list point * nat) :=
  get_random_points tp num_points (IZR (shape0 heatmap)) None 0 k.

(** One iteration of the outer loop of [add_random_edges]. *)
Definition edge_iteration (tp : Tape) (heatmap : buffer) (edge_intensity : Z)
    (num_points : Z) (st : buffer * nat) : result (buffer * nat) :=
  let (edges_map, k) := st in
  rp <- edge_points tp heatmap num_points k ;;
  let (random_points, k') := rp in
  xya <- get_bezier_curve random_points (2 / 10) 0 ;;
  let x := fst (fst xya) in
  let y := snd (fst xya) in
  Ok (fold_left (plot_sample heatmap edge_intensity) (combine x y) edges_map,
      k').

(** [for _ in range(count)] over a fallible body. *)
Fixpoint for_range {S : Type} (count : nat) (body : S -> result S) (st : S)
  : result S :=
  match count with
  | O => Ok st
  | Datatypes.S count' => st' <- body st ;; for_range count' body st'
  end.

Definition add_random_edges (tp : Tape) (heatmap : buffer) (num_edges : Z)
    (edge_intensity : Z) (num_points : Z) (k : nat) : result (buffer * nat) :=
  let edges_map := np_zeros_like heatmap in
  for_range (Z.to_nat num_edges)
    (edge_iteration tp heatmap edge_intensity num_points) (edges_map, k).

(** One iteration of the source loop of [generate_thermal_heatmap]. *)
Definition source_iteration (tp : Tape) (width height : Z) (source_sigma : R)
    (st : buffer * nat) : result (buffer * nat) :=
  let (heatmap, k) := st in
  x <- np_random_randint tp k 10 (width - 10) ;;
  y <- np_random_randint tp (k + 1) 10 (height - 10) ;;
  let intensity := np_random_uniform tp (k + 2) 200 255 in
  src <- generate_heat_source heatmap x y intensity 5 source_sigma ;;
  Ok (buffer_add heatmap src, (k + 3)%nat).

(** The [i]-th heat source of a run of the source loop that starts at
    position [k] of the tape, stamped on the zero canvas of the shape of
    [canvas]; what the accumulated buffer is compared with. *)
Definition nth_source (tp : Tape) (width height : Z) (source_sigma : R)
    (canvas : buffer) (k i : nat) : buffer :=
  gaussian_filter
    (heat_source_stamp (np_zeros_like canvas)
       (tape_randint tp (k + 3 * i) 10 (width - 10))
       (tape_randint tp (k + 3 * i + 1) 10 (height - 10))
       (tape_uniform tp (k + 3 * i + 2) 200 255) 5)
    source_sigma.

(** [if b.max() != 0: b = b / b.max()] *)
Definition normalize (b : buffer) : result buffer :=
  m <- buffer_max b ;;
  Ok (if Req_dec_T m 0 then b else buffer_map (fun v => v / m) b).

(** [generate_thermal_heatmap] up to the sum of the two normalised
    buffers, the value of [combined_heatmap] before the final rescale. *)
Definition combined_heatmap (tp : Tape) (width height num_sources num_edges : Z)
    (edge_sigma source_sigma : R) (k : nat) : result buffer :=
  heatmap <- np_zeros height width ;;
  hk <- for_range (Z.to_nat num_sources)
          (source_iteration tp width height source_sigma) (heatmap, k) ;;
  let (heatmap, k) := hk in
  ek <- add_random_edges tp heatmap num_edges 128 3 k ;;
  let edges := gaussian_filter (fst ek) edge_sigma in
  heatmap <- normalize heatmap ;;
  edges <- normalize edges ;;
  Ok (buffer_add heatmap edges).

(** The final rescale, clip and conversion to 8-bit integers. *)
Definition final_rescale (combined_heatmap : buffer) : result (list (list Z)) :=
  m <- buffer_max combined_heatmap ;;
  let combined_heatmap :=
    if Req_dec_T m 0 then combined_heatmap
    else buffer_map (fun v => v / m * 255) combined_heatmap in
  Ok (map (map (fun v => astype_uint8 (np_clip 0 255 v))) combined_heatmap).

Definition generate_thermal_heatmap (tp : Tape)
    (width height num_sources num_edges : Z) (edge_sigma source_sigma : R)
    (k : nat) : result (list (list Z)) :=
  c <- combined_heatmap tp width height num_sources num_edges
         edge_sigma source_sigma k ;;
  final_rescale c.

End Pipeline.

(** [h.max()] on the returned 8-bit heatmap. *)
Definition heatmap_max (h : list (list Z)) : result Z :=
  match concat h with
  | [] => Raise ValueError
  | x :: tl => Ok (fold_left Z.max tl x)
  end.

(** Whether the square [[y - size//2, y + size//2] x [x - size//2, x + size//2]]
    lies inside the canvas. *)
Definition region_in_bounds (heatmap : buffer) (x y size : Z) : bool :=
  ((0 <=? y - size / 2) && (y + size / 2 <? shape0 heatmap)
   && ((0 <=? x - size / 2) && (x + size / 2 <? shape1 heatmap)))%Z.

(** [b[r][c]], when the position exists. *)
Definition pixel (b : buffer) (r c : nat) : option R :=
  match nth_error b r with
  | Some row => nth_error row c
  | None => None
  end.

(** A buffer without negative elements. *)
Definition nonneg (b : buffer) : Prop := Forall (Forall (fun v => 0 <= v)) b.

(** *** Arrays as objects

    [generate_heat_source] receives a reference to the caller's array.
    Here arrays live in a store and are named by their position in it;
    allocation appends, assignment through a reference replaces. *)
Module objects.

Definition store : Type := list buffer.
Definition ref : Type := nat.

Definition deref (s : store) (l : ref) : buffer := nth l s [].

Definition alloc (s : store) (b : buffer) : store * ref :=
  (s ++ [b], length s).

Definition update (s : store) (l : ref) (b : buffer) : store :=
  set_row s l b.

Section Objects.

Variable gaussian_filter : buffer -> R -> buffer.

Definition generate_heat_source (s : store) (heatmap : ref) (x y : Z)
    (intensity : R) (size : Z) (spread_sigma : R) : store * ref :=
  let (s, heat_source) := alloc s (np_zeros_like (deref s heatmap)) in
  let s :=
    update s heat_source
      (assign_slice2 (deref s heat_source)
         (y - size / 2) (y + size / 2 + 1) (x - size / 2) (x + size / 2 + 1)
         intensity) in
  alloc s (gaussian_filter (deref s heat_source) spread_sigma).

(** [heatmap += generate_heat_source(heatmap, ...)] *)
Definition accumulate_source (s : store) (heatmap : ref) (x y : Z)
    (intensity : R) (spread_sigma : R) : store :=
  let (s, src) := generate_heat_source s heatmap x y intensity 5 spread_sigma in
  update s heatmap (buffer_add (deref s heatmap) (deref s src)).

End Objects.

End objects.

End thermal_heatmap_generator.

(** ** Instances used in the examples *)

(** A generator that always draws the centre of the unit square and the
    lower end of every range. *)
Definition constant_tape : Tape := {|
  tape_rand := fun _ n => repeat (1 / 2, 1 / 2) n;
  tape_randint := fun _ lo _ => lo;
  tape_uniform := fun _ lo _ => lo
|}.

(** The filter that copies its input, which is what a Gaussian of
    standard deviation 0 does. *)
Definition identity_filter (b : list (list R)) (sigma : R) : list (list R) := b.

(** * Properties *)

(** ** Curve segments *)

Module bezier_facts.

Import bezier.

Lemma C_3_0 : C 3 0 = 1.
Proof. unfold C; simpl; field. Qed.

Lemma C_3_1 : C 3 1 = 3.
Proof. unfold C; simpl; field. Qed.

Lemma C_3_2 : C 3 2 = 3.
Proof. unfold C; simpl; field. Qed.

Lemma C_3_3 : C 3 3 = 1.
Proof. unfold C; simpl; field. Qed.

(** The cubic case of [bezier_at], in closed form. *)
Lemma bezier_at_cubic (a b c d : point) (t : R) :
  bezier_at [a; b; c; d] t =
  ((1 - t) ^ 3 * fst a + 3 * t * (1 - t) ^ 2 * fst b
     + 3 * t ^ 2 * (1 - t) * fst c + t ^ 3 * fst d,
   (1 - t) ^ 3 * snd a + 3 * t * (1 - t) ^ 2 * snd b
     + 3 * t ^ 2 * (1 - t) * snd c + t ^ 3 * snd d).
Proof.
  unfold bezier_at, bernstein, binom, padd, pscale.
  cbn [length Nat.sub seq combine fold_left fst snd].
  change (4 - 1)%nat with 3%nat.
  cbn [Nat.leb].
  rewrite C_3_0, C_3_1, C_3_2, C_3_3.
  change (3 - 0)%nat with 3%nat; change (3 - 1)%nat with 2%nat;
  change (3 - 2)%nat with 1%nat; change (3 - 3)%nat with 0%nat.
  f_equal; ring.
Qed.

(** The control points [Segment.__init__] stores. *)
Lemma Segment_init_p (q1 q2 : point) (a1 a2 : R) (kw : kwargs) :
  let rd := kw_get (kw_r kw) (3 / 10)
            * sqrt ((fst q2 - fst q1) ^ 2 + (snd q2 - snd q1) ^ 2) in
  p (Segment_init q1 q2 a1 a2 kw) =
  [ q1;
    (fst q1 + rd * cos a1, snd q1 + rd * sin a1);
    (fst q2 + rd * cos (a2 + PI), snd q2 + rd * sin (a2 + PI));
    q2 ].
Proof. reflexivity. Qed.

Lemma Segment_init_curve (q1 q2 : point) (a1 a2 : R) (kw : kwargs) :
  curve (Segment_init q1 q2 a1 a2 kw) =
  bezier (p (Segment_init q1 q2 a1 a2 kw)) (kw_get (kw_numpoints kw) 100%nat).
Proof. reflexivity. Qed.

(** *** Sample points of one segment *)

Lemma linspace_length (a b : R) (num : nat) : length (linspace a b num) = num.
Proof. unfold linspace; now rewrite length_map, length_seq. Qed.

Lemma linspace_first (num : nat) (d : R) :
  (1 <= num)%nat -> hd d (linspace 0 1 num) = 0.
Proof.
  destruct num as [|n]; [lia | intros _].
  unfold linspace; cbn [seq map hd INR]; ring.
Qed.

Lemma linspace_last (num : nat) (d : R) :
  (2 <= num)%nat -> last (linspace 0 1 num) d = 1.
Proof.
  destruct num as [|n]; [lia | intros Hn].
  unfold linspace.
  rewrite seq_S, map_app; cbn [map Nat.add]; rewrite last_last.
  replace (S n - 1)%nat with n by lia.
  assert (INR n <> 0) by (apply not_0_INR; lia).
  field; assumption.
Qed.

Lemma hd_map {A B : Type} (f : A -> B) (l : list A) (d : A) :
  hd (f d) (map f l) = f (hd d l).
Proof. now destruct l. Qed.

Lemma last_map_nonempty {A B : Type} (f : A -> B) (l : list A) (d : A) (d' : B) :
  l <> [] -> last (map f l) d' = f (last l d).
Proof.
  induction l as [|x [|y tl] IH]; intros Hne; [congruence | reflexivity |].
  change (last (map f (y :: tl)) d' = f (last (y :: tl) d)).
  apply IH; discriminate.
Qed.

Lemma bezier_length (pts : list point) (num : nat) :
  length (bezier pts num) = num.
Proof. unfold bezier; now rewrite length_map, linspace_length. Qed.

Lemma segment_curve_length (q1 q2 : point) (a1 a2 : R) (kw : kwargs) :
  length (curve (Segment_init q1 q2 a1 a2 kw)) = kw_get (kw_numpoints kw) 100%nat.
Proof. rewrite Segment_init_curve; apply bezier_length. Qed.

Lemma segment_endpoints_at (q1 q2 : point) (a1 a2 : R) (kw : kwargs) :
  bezier_at (p (Segment_init q1 q2 a1 a2 kw)) 0 = q1 /\
  bezier_at (p (Segment_init q1 q2 a1 a2 kw)) 1 = q2.
Proof.
  rewrite Segment_init_p, !bezier_at_cubic.
  destruct q1 as [x1 y1], q2 as [x2 y2]; cbn [fst snd].
  split; f_equal; ring.
Qed.

(** The first sample of a segment is its start point. *)
Lemma segment_curve_first (q1 q2 : point) (a1 a2 : R) (kw : kwargs) (d : point) :
  (1 <= kw_get (kw_numpoints kw) 100)%nat ->
  hd d (curve (Segment_init q1 q2 a1 a2 kw)) = q1.
Proof.
  intros Hn; rewrite Segment_init_curve; unfold bezier.
  set (pts := p _).
  assert (Hne : linspace 0 1 (kw_get (kw_numpoints kw) 100%nat) <> []).
  { intros E; apply (f_equal (@length R)) in E.
    rewrite linspace_length in E; simpl in E; lia. }
  destruct (linspace 0 1 _) as [|t ts] eqn:E; [congruence|].
  pose proof (linspace_first _ 0 Hn) as H0; rewrite E in H0; cbn in H0.
  cbn [map hd]; subst t; apply segment_endpoints_at.
Qed.

(** The last sample of a segment with at least two samples is its end
    point. *)
Lemma segment_curve_last (q1 q2 : point) (a1 a2 : R) (kw : kwargs) (d : point) :
  (2 <= kw_get (kw_numpoints kw) 100)%nat ->
  last (curve (Segment_init q1 q2 a1 a2 kw)) d = q2.
Proof.
  intros Hn; rewrite Segment_init_curve; unfold bezier.
  set (pts := p _).
  rewrite (last_map_nonempty _ _ 0).
  - rewrite linspace_last by assumption; apply segment_endpoints_at.
  - intros E; apply (f_equal (@length R)) in E.
    rewrite linspace_length in E; simpl in E; lia.
Qed.

(** *** Assembling the closed curve *)

Lemma insert_by_length {A : Type} (key : A -> R) (x : A) (l : list A) :
  length (insert_by key x l) = S (length l).
Proof.
  induction l as [|y tl IH]; cbn; [reflexivity|].
  destruct (Rle_dec _ _); cbn; [reflexivity | now rewrite IH].
Qed.

Lemma sort_by_length {A : Type} (key : A -> R) (l : list A) :
  length (sort_by key l) = length l.
Proof.
  induction l as [|x tl IH]; cbn; [reflexivity|].
  fold (sort_by key tl); now rewrite insert_by_length, IH.
Qed.

Lemma ccw_sort_length (pts : list point) : length (ccw_sort pts) = length pts.
Proof. apply sort_by_length. Qed.

Lemma diff_length (a : list point) : length (diff a) = (length a - 1)%nat.
Proof.
  induction a as [|x [|y tl] IH]; try reflexivity.
  change (S (length (diff (y :: tl))) = (length (x :: y :: tl) - 1)%nat).
  rewrite IH; cbn [length]; lia.
Qed.

Lemma removelast_len {A : Type} (l : list A) :
  length (removelast l) = (length l - 1)%nat.
Proof.
  induction l as [|x [|y tl] IH]; try reflexivity.
  change (S (length (removelast (y :: tl))) = (length (x :: y :: tl) - 1)%nat).
  rewrite IH; cbn [length]; lia.
Qed.

Lemma roll1_length (l : list R) : length (roll1 l) = length l.
Proof.
  destruct l as [|x tl]; [reflexivity|].
  unfold roll1; cbn [length]; rewrite removelast_len; cbn [length]; lia.
Qed.

Lemma zip_with_length {A B C : Type} (f : A -> B -> C) (l : list A) (m : list B) :
  length (zip_with f l m) = Nat.min (length l) (length m).
Proof.
  revert m; induction l as [|x l IH]; intros [|y m]; cbn; try reflexivity.
  now rewrite IH.
Qed.

Lemma combine_snoc {A B : Type} (l : list A) (m : list B) (x : A) (y : B) :
  length l = length m ->
  combine (l ++ [x]) (m ++ [y]) = combine l m ++ [(x, y)].
Proof.
  revert m; induction l as [|a l IH]; intros [|b m] H; cbn in *;
    try discriminate; [reflexivity|].
  f_equal; apply IH; lia.
Qed.

Lemma hd_app_nonempty {A : Type} (l m : list A) (d : A) :
  l <> [] -> hd d (l ++ m) = hd d l.
Proof. destruct l; [congruence | reflexivity]. Qed.

Lemma last_app_nonempty {A : Type} (l m : list A) (d : A) :
  m <> [] -> last (l ++ m) d = last m d.
Proof.
  intros Hm; destruct m as [|y m] using rev_ind; [congruence|].
  now rewrite app_assoc, !last_last.
Qed.

Lemma last_default_irrel {A : Type} (l : list A) (d d' : A) :
  l <> [] -> last l d = last l d'.
Proof.
  intros Hl; destruct l as [|y l] using rev_ind; [congruence|].
  now rewrite !last_last.
Qed.

Lemma length_nonempty {A : Type} (l : list A) : (0 < length l)%nat -> l <> [].
Proof. destruct l; cbn; [lia | discriminate]. Qed.

(** The concatenated samples of the segments through a sequence of at
    least two rows: they start at the first row and end at the last. *)
Lemma get_segments_samples (kw : kwargs) (d : point) (tl : list apoint) :
  (2 <= kw_get (kw_numpoints kw) 100)%nat ->
  forall r0 r1 : apoint,
  let c := concat (map curve (get_segments (r0 :: r1 :: tl) kw)) in
  hd d c = xy r0 /\
  last c d = xy (last (r1 :: tl) r0) /\
  length c = (kw_get (kw_numpoints kw) 100 * S (length tl))%nat /\
  length (get_segments (r0 :: r1 :: tl) kw) = S (length tl).
Proof.
  intros Hn; induction tl as [|r2 tl IH]; intros r0 r1 c.
  - subst c; cbn [get_segments map concat last length].
    rewrite app_nil_r.
    rewrite segment_curve_first by lia.
    rewrite segment_curve_last by lia.
    rewrite segment_curve_length; repeat split; lia.
  - specialize (IH r1 r2); cbv zeta in IH.
    destruct IH as (_ & IHlast & IHlen & IHsegs).
    subst c.
    change (get_segments (r0 :: r1 :: r2 :: tl) kw)
      with (Segment_init (xy r0) (xy r1) (ang_of r0) (ang_of r1) kw
            :: get_segments (r1 :: r2 :: tl) kw).
    cbn [map concat].
    set (c' := concat (map curve (get_segments (r1 :: r2 :: tl) kw))) in *.
    assert (Hc' : c' <> []) by (apply length_nonempty; rewrite IHlen; nia).
    repeat split.
    + rewrite hd_app_nonempty.
      * apply segment_curve_first; lia.
      * apply length_nonempty; rewrite segment_curve_length; lia.
    + rewrite last_app_nonempty by assumption.
      rewrite IHlast; f_equal.
      change (last (r1 :: r2 :: tl) r0) with (last (r2 :: tl) r0).
      apply last_default_irrel; discriminate.
    + rewrite length_app, segment_curve_length, IHlen; cbn [length]; nia.
    + cbn [length]; rewrite IHsegs; reflexivity.
Qed.

Lemma np_concatenate_cons {A : Type} (l : list A) (ls : list (list A)) :
  np_concatenate (l :: ls) = Ok (concat (l :: ls)).
Proof. reflexivity. Qed.

Lemma get_curve_two (r0 r1 : apoint) (tl : list apoint) (kw : kwargs) :
  get_curve (r0 :: r1 :: tl) kw =
  Ok (get_segments (r0 :: r1 :: tl) kw,
      concat (map curve (get_segments (r0 :: r1 :: tl) kw))).
Proof. reflexivity. Qed.

(** What [get_bezier_curve] returns on a non-empty point set: the curve
    starts and ends at the first of the sorted points, and the augmented
    array starts and ends with one and the same row. *)
Lemma get_bezier_curve_closed (a : list point) (rad edgy : R) :
  a <> [] ->
  exists (x y : list R) (a' : list apoint) (q : point) (g : R),
    get_bezier_curve a rad edgy = Ok (x, y, a') /\
    hd_error (ccw_sort a) = Some q /\
    length x = (100 * length a)%nat /\
    length y = (100 * length a)%nat /\
    hd 0 x = fst q /\ hd 0 y = snd q /\
    last x 0 = fst q /\ last y 0 = snd q /\
    length a' = S (length a) /\
    hd_error a' = Some (q, g) /\
    last a' (q, g) = (q, g).
Proof.
  intros Ha.
  remember (get_bezier_curve a rad edgy) as res eqn:Erun.
  unfold get_bezier_curve in Erun.
  pose proof (ccw_sort_length a) as Hlen.
  destruct (ccw_sort a) as [|q srt] eqn:Esort.
  { destruct a; [congruence | discriminate]. }
  cbn [first_row bind] in Erun.
  match type of Erun with
  | context [zip_with ?f ?l (roll1 ?l)] =>
      set (ang2d := l) in Erun;
      set (blended := zip_with f ang2d (roll1 ang2d)) in Erun
  end.
  assert (Hbl : length blended = length (q :: srt)).
  { unfold blended; rewrite zip_with_length, roll1_length, Nat.min_id.
    unfold ang2d; rewrite !length_map, diff_length, length_app.
    cbn [length]; lia. }
  destruct blended as [|g bl] eqn:Ebl; [discriminate|].
  cbn [first_row bind] in Erun.
  rewrite combine_snoc in Erun by (symmetry; exact Hbl).
  cbn [combine app] in Erun.
  assert (Hcomb : length (combine srt bl) = length srt).
  { rewrite length_combine; cbn [length] in Hbl; lia. }
  set (kw := {| kw_numpoints := None; kw_r := Some rad |}) in Erun.
  assert (Hkw : (2 <= kw_get (kw_numpoints kw) 100)%nat) by (cbn; lia).
  destruct (combine srt bl ++ [(q, g)]) as [|r1 tl] eqn:Etl.
  { destruct (combine srt bl); discriminate. }
  assert (Htl : length tl = length srt).
  { apply (f_equal (@length _)) in Etl.
    rewrite length_app in Etl; cbn [length] in Etl; lia. }
  assert (Hlast : last (r1 :: tl) (q, g) = (q, g)).
  { rewrite <- Etl; apply last_last. }
  match type of Erun with
  | context [get_curve (?r0 :: ?r1' :: ?t) ?k] =>
      pose proof (get_segments_samples k (0, 0) t Hkw r0 r1') as Hs;
      rewrite (get_curve_two r0 r1' t k) in Erun
  end.
  cbv zeta in Hs; destruct Hs as (Hhd & Hla & Hlc & Hls).
  cbn [bind snd] in Erun.
  match type of Hlc with
  | length ?t = _ => set (c := t) in *
  end.
  exists (map fst c), (map snd c), ((q, g) :: r1 :: tl), q, g.
  assert (Hc : c <> []).
  { apply length_nonempty; rewrite Hlc; cbn; lia. }
  cbn [length] in Hlen.
  repeat split.
  - exact Erun.
  - rewrite length_map, Hlc; cbn [kw_get kw kw_numpoints]; lia.
  - rewrite length_map, Hlc; cbn [kw_get kw kw_numpoints]; lia.
  - change 0 with (fst (0, 0)) at 1; rewrite hd_map, Hhd; reflexivity.
  - change 0 with (snd (0, 0)) at 1; rewrite hd_map, Hhd; reflexivity.
  - rewrite (last_map_nonempty _ _ (0, 0)) by assumption.
    rewrite Hla, Hlast; reflexivity.
  - rewrite (last_map_nonempty _ _ (0, 0)) by assumption.
    rewrite Hla, Hlast; reflexivity.
  - cbn [length]; lia.
  - exact Hlast.
Qed.

(** C6. For a point set of at least three points, [get_bezier_curve]
    returns a closed curve: its first sample equals its last sample, in
    both coordinates; the first of the sorted points is appended again at
    the end of the point sequence, together with the first blended angle. *)
Theorem closed_curve (a : list point) (rad edgy : R) :
  (3 <= length a)%nat ->
  exists (x y : list R) (a' : list apoint),
    get_bezier_curve a rad edgy = Ok (x, y, a') /\
    x <> [] /\ length y = length x /\
    hd 0 x = last x 0 /\
    hd 0 y = last y 0 /\
    length a' = S (length a) /\
    (exists row, hd_error a' = Some row /\ last a' row = row /\
                 hd_error (ccw_sort a) = Some (xy row)).
Proof.
  intros Hlen.
  assert (Ha : a <> []) by (apply length_nonempty; lia).
  destruct (get_bezier_curve_closed a rad edgy Ha)
    as (x & y & a' & q & g & Hrun & Hq & Hx & Hy & Hx0 & Hy0 & Hx1 & Hy1
        & Ha' & Hhd & Hla).
  exists x, y, a'; repeat split; try assumption; try congruence.
  - apply length_nonempty; lia.
  - exists (q, g); auto.
Qed.

Lemma closed_curve_witness :
  exists (x y : list R) (a' : list (R * R * R)),
    get_bezier_curve [(0, 0); (1, 0); (0, 1)] (2 / 10) 0 = Ok (x, y, a') /\
    x <> [] /\ length y = length x /\
    hd 0 x = last x 0 /\
    hd 0 y = last y 0 /\
    length a' = 4%nat /\
    (exists row, hd_error a' = Some row /\ last a' row = row /\
                 hd_error (ccw_sort [(0, 0); (1, 0); (0, 1)]) = Some (xy row)).
Proof.
  apply (closed_curve [(0, 0); (1, 0); (0, 1)] (2 / 10) 0); simpl; lia.
Defined.

(** C7. The four control points of a segment built from [q1], [q2],
    angles [a1], [a2] and radius factor [r] (0.3 when not given) are
    [q1], [q1 + r*d*(cos a1, sin a1)], [q2 + r*d*(cos (a2+pi), sin (a2+pi))]
    and [q2], with [d] the Euclidean distance from [q1] to [q2]; the
    Bezier point at parameter 0 is [q1] and at parameter 1 is [q2]. *)
Theorem segment_control_points_and_endpoints
    (q1 q2 : point) (a1 a2 : R) (kw : kwargs) :
  let s := Segment_init q1 q2 a1 a2 kw in
  let d := sqrt ((fst q2 - fst q1) ^ 2 + (snd q2 - snd q1) ^ 2) in
  let rf := kw_get (kw_r kw) (3 / 10) in
  nth_error (p s) 0 = Some q1 /\
  nth_error (p s) 3 = Some q2 /\
  nth_error (p s) 1 = Some (padd q1 (pscale (rf * d) (cos a1, sin a1))) /\
  nth_error (p s) 2 =
    Some (padd q2 (pscale (rf * d) (cos (a2 + PI), sin (a2 + PI)))) /\
  length (p s) = 4%nat /\
  bezier_at (p s) 0 = q1 /\
  bezier_at (p s) 1 = q2.
Proof.
  intros s d rf.
  unfold s; rewrite Segment_init_p; fold d; fold rf.
  repeat split; try reflexivity.
  - rewrite bezier_at_cubic; destruct q1 as [x y]; cbn [fst snd].
    f_equal; ring.
  - rewrite bezier_at_cubic; destruct q2 as [x y]; cbn [fst snd].
    f_equal; ring.
Qed.

Lemma insert_by_In {A : Type} (key : A -> R) (x q : A) (l : list A) :
  In q (insert_by key x l) <-> x = q \/ In q l.
Proof.
  induction l as [|y l IH]; cbn; [tauto|].
  destruct (Rle_dec _ _); cbn; [tauto|].
  rewrite IH; tauto.
Qed.

Lemma sort_by_In {A : Type} (key : A -> R) (q : A) (l : list A) :
  In q (sort_by key l) <-> In q l.
Proof.
  induction l as [|x l IH]; cbn; [tauto|].
  fold (sort_by key l); rewrite insert_by_In, IH; tauto.
Qed.

Lemma ccw_sort_In (q : R * R) (pts : list (R * R)) :
  In q (ccw_sort pts) <-> In q pts.
Proof. apply sort_by_In. Qed.

(** ** The point sampler *)

(** The body of [get_random_points], as the source writes it. *)
Lemma get_random_points_unfold (tp : Tape) (n : Z) (scale : R)
    (mindst : option R) (rec k : nat) :
  get_random_points tp n scale mindst rec k =
  (m <- mindst_or_default mindst n ;;
   a <- np_random_rand tp k n ;;
   if all_ge (sorted_distances a) m || (200 <=? rec)%nat
   then Ok (map (pscale scale) a, S k)
   else get_random_points tp n scale (Some m) (S rec) (S k)).
Proof.
  funelim (get_random_points tp n scale mindst rec k);
    repeat match goal with
           | H : _ = get_random_points _ _ _ _ _ _ |- _ => clear H
           | H : get_random_points _ _ _ _ _ _ = _ |- _ => clear H
           end;
    repeat match goal with
           | H : _ = _ |- _ => rewrite H; clear H
           end; cbn [bind orb]; try reflexivity;
    destruct (Nat.leb_spec 200 rec); try lia;
    repeat match goal with
           | H : all_ge _ _ = _ |- _ => rewrite H
           end; reflexivity.
Qed.

Lemma mindst_or_default_zero (n : Z) :
  mindst_or_default (Some 0) n = mindst_or_default None n.
Proof.
  unfold mindst_or_default.
  destruct (Req_dec_T 0 0) as [_|Hne]; [reflexivity | now elim Hne].
Qed.

Lemma mindst_or_default_ok (mindst : option R) (n : Z) :
  n <> 0%Z -> exists m, mindst_or_default mindst n = Ok m /\ m <> 0.
Proof.
  intros Hn.
  assert (Hd : 7 / 10 / IZR n <> 0).
  { assert (IZR n <> 0) by (now apply not_0_IZR).
    intros E; apply (f_equal (fun v => v * IZR n)) in E.
    field_simplify in E; [lra | assumption]. }
  unfold mindst_or_default.
  destruct (Z.eqb_spec n 0) as [|_]; [contradiction|].
  destruct mindst as [m|]; [|eauto].
  destruct (Req_dec_T m 0); eauto.
Qed.

Lemma mindst_or_default_fixed (m : R) (n : Z) :
  m <> 0 -> mindst_or_default (Some m) n = Ok m.
Proof.
  intros Hm; unfold mindst_or_default.
  destruct (Req_dec_T m 0); [contradiction | reflexivity].
Qed.

(** The resolved minimum distance is what the recursion carries. *)
Lemma get_random_points_resolved (tp : Tape) (n : Z) (scale : R)
    (mindst : option R) (m : R) (rec k : nat) :
  mindst_or_default mindst n = Ok m -> m <> 0 ->
  get_random_points tp n scale mindst rec k =
  get_random_points tp n scale (Some m) rec k.
Proof.
  intros Hm Hm0.
  rewrite (get_random_points_unfold tp n scale mindst).
  rewrite (get_random_points_unfold tp n scale (Some m)).
  now rewrite Hm, mindst_or_default_fixed.
Qed.

Lemma all_ge_true (d : list R) (m : R) :
  all_ge d m = true <-> (forall x, In x d -> x >= m).
Proof.
  unfold all_ge; rewrite forallb_forall; split; intros H x Hx.
  - specialize (H x Hx); unfold Rgeb in H.
    destruct (Rge_dec x m); [assumption | discriminate].
  - unfold Rgeb; destruct (Rge_dec x m) as [|Hn]; [reflexivity|].
    elim Hn; auto.
Qed.

(** The retry loop, by induction on the budget that is left. *)
Lemma get_random_points_loop (tp : Tape) (n : Z) (scale m : R) :
  (0 <= n)%Z -> m <> 0 ->
  forall (d rec k : nat), (200 - rec)%nat = d ->
  exists j : nat,
    (j <= d)%nat /\
    get_random_points tp n scale (Some m) rec k =
      Ok (map (pscale scale) (tape_rand tp (k + j) (Z.to_nat n)), S (k + j)) /\
    (all_ge (sorted_distances (tape_rand tp (k + j) (Z.to_nat n))) m = true
     \/ (200 <= rec + j)%nat) /\
    (forall i, (i < j)%nat ->
       all_ge (sorted_distances (tape_rand tp (k + i) (Z.to_nat n))) m = false).
Proof.
  intros Hn Hm d; induction d as [|d IH]; intros rec k Hd;
    rewrite get_random_points_unfold, mindst_or_default_fixed by assumption;
    unfold np_random_rand;
    (destruct (Z.ltb_spec n 0) as [|_]; [lia|]); cbn [bind].
  - exists 0%nat; rewrite Nat.add_0_r.
    destruct (Nat.leb_spec 200 rec); [|lia].
    rewrite orb_true_r; repeat split; auto with arith; lia.
  - destruct (all_ge (sorted_distances (tape_rand tp k (Z.to_nat n))) m) eqn:Et.
    + exists 0%nat; rewrite Nat.add_0_r; cbn [orb].
      repeat split; auto with arith; lia.
    + destruct (Nat.leb_spec 200 rec); [lia|]; cbn [orb].
      destruct (IH (S rec) (S k)) as (j & Hj & Hrun & Hacc & Hfail); [lia|].
      exists (S j).
      replace (k + S j)%nat with (S k + j)%nat by lia.
      repeat split; [lia | exact Hrun | |].
      * destruct Hacc as [Hacc | Hacc]; [left; exact Hacc | right; lia].
      * intros [|i] Hi; [now rewrite Nat.add_0_r|].
        replace (k + S i)%nat with (S k + i)%nat by lia.
        apply Hfail; lia.
Qed.


Lemma constant_tape_ok : tape_ok constant_tape.
Proof.
  split; cbn.
  - intros _ n; apply repeat_length.
  - intros _ n q Hq; apply repeat_spec in Hq; subst q; cbn; lra.
  - intros; lia.
  - intros; lra.
Qed.


Lemma mindst_or_default_positive (n : Z) :
  (0 < n)%Z ->
  mindst_or_default None n = Ok (7 / 10 / IZR n) /\ 0 < 7 / 10 / IZR n.
Proof.
  intros Hn; split.
  - unfold mindst_or_default.
    destruct (Z.eqb_spec n 0); [lia | reflexivity].
  - assert (0 < IZR n) by (apply IZR_lt; lia).
    apply Rdiv_lt_0_compat; lra.
Qed.

(** C9. Passing a minimum distance of exactly 0 to [get_random_points]
    is the same as passing none.  For a positive [n] the 0 is replaced by
    [0.7 / n], which is positive, and the distance test is made against
    that value: a draw with a consecutive distance below [0.7 / n] is
    rejected and drawn again while the budget lasts, although every
    distance is at least 0; the draw that is returned passes the test
    against [0.7 / n] or used up the budget.  So passing 0 does not switch
    the minimum distance off. *)
Theorem zero_mindst_is_default (tp : Tape) (n : Z) (scale : R) (rec k : nat) :
  get_random_points tp n scale (Some 0) rec k
  = get_random_points tp n scale None rec k /\
  ((0 < n)%Z ->
   let m := 7 / 10 / IZR n in
   mindst_or_default (Some 0) n = Ok m /\ 0 < m /\
   ((rec < 200)%nat ->
    all_ge (sorted_distances (tape_rand tp k (Z.to_nat n))) m = false ->
    get_random_points tp n scale (Some 0) rec k
    = get_random_points tp n scale (Some m) (S rec) (S k)) /\
   exists j : nat,
     (j <= 200 - rec)%nat /\
     get_random_points tp n scale (Some 0) rec k
     = Ok (map (pscale scale) (tape_rand tp (k + j) (Z.to_nat n)),
           S (k + j)) /\
     (all_ge (sorted_distances (tape_rand tp (k + j) (Z.to_nat n))) m = true
      \/ (200 <= rec + j)%nat) /\
     (forall i, (i < j)%nat ->
        all_ge (sorted_distances (tape_rand tp (k + i) (Z.to_nat n))) m
        = false)).
Proof.
  assert (Heq : get_random_points tp n scale (Some 0) rec k
                = get_random_points tp n scale None rec k).
  { rewrite (get_random_points_unfold tp n scale (Some 0)).
    rewrite (get_random_points_unfold tp n scale None).
    now rewrite mindst_or_default_zero. }
  split; [exact Heq|].
  intros Hn m.
  destruct (mindst_or_default_positive n Hn) as [Hm Hpos]; fold m in Hm, Hpos.
  assert (Hm0 : m <> 0) by lra.
  split; [now rewrite mindst_or_default_zero|].
  split; [exact Hpos|].
  split.
  - intros Hrec Hfail.
    rewrite get_random_points_unfold, mindst_or_default_zero, Hm.
    cbn [bind]; unfold np_random_rand.
    destruct (Z.ltb_spec n 0); [lia|]; cbn [bind].
    rewrite Hfail; destruct (Nat.leb_spec 200 rec); [lia | reflexivity].
  - destruct (get_random_points_loop tp n scale m ltac:(lia) Hm0
                (200 - rec)%nat rec k eq_refl)
      as (j & Hj & Hrun & Hacc & Hfail).
    exists j; repeat split; try assumption.
    rewrite Heq, (get_random_points_resolved tp n scale None m) by assumption.
    exact Hrun.
Qed.

Lemma sort_by_repeat {A : Type} (key : A -> R) (x : A) (n : nat) :
  sort_by key (repeat x n) = repeat x n.
Proof.
  induction n as [|n IH]; cbn; [reflexivity|].
  fold (sort_by key (repeat x n)); rewrite IH.
  destruct n as [|n]; cbn; [reflexivity|].
  destruct (Rle_dec (key x) (key x)) as [_ | Hn]; [reflexivity|].
  elim Hn; lra.
Qed.

(** Three coinciding points are at distance 0 from one another, which is
    below [0.7 / 3]. *)
Lemma constant_tape_fails_test (k : nat) :
  all_ge (sorted_distances (tape_rand constant_tape k (Z.to_nat 3)))
    (7 / 10 / IZR 3) = false.
Proof.
  unfold sorted_distances, ccw_sort.
  change (tape_rand constant_tape k (Z.to_nat 3))
    with (repeat (1 / 2, 1 / 2) 3).
  rewrite sort_by_repeat; cbn [repeat diff map psub fst snd].
  replace ((1 / 2 - 1 / 2) ^ 2 + (1 / 2 - 1 / 2) ^ 2) with 0 by ring.
  rewrite sqrt_0; cbn [all_ge forallb]; unfold Rgeb.
  destruct (Rge_dec 0 (7 / 10 / 3)); [lra | reflexivity].
Qed.

Lemma zero_mindst_is_default_witness :
  mindst_or_default (Some 0) 3 = Ok (7 / 10 / IZR 3) /\
  0 < 7 / 10 / IZR 3 /\
  get_random_points constant_tape 3 1 (Some 0) 0 0
  = get_random_points constant_tape 3 1 (Some (7 / 10 / IZR 3)) 1 1.
Proof.
  pose proof (proj2 (zero_mindst_is_default constant_tape 3 1 0 0)
                ltac:(lia)) as H.
  cbv zeta in H; destruct H as (Hm & Hpos & Hretry & _).
  split; [exact Hm|]; split; [exact Hpos|].
  apply Hretry; [lia | apply constant_tape_fails_test].
Defined.

End bezier_facts.

(** ** The compositing pipeline *)

Module thermal_facts.

Import bezier thermal_heatmap_generator.

(** *** Truncation and clipping *)

Lemma Int_part_IZR (z : Z) : Int_part (IZR z) = z.
Proof. symmetry; apply Int_part_spec; lra. Qed.

Lemma R_to_int_IZR (z : Z) : R_to_int (IZR z) = z.
Proof.
  unfold R_to_int; destruct (Rlt_dec (IZR z) 0); [|apply Int_part_IZR].
  rewrite <- opp_IZR, Int_part_IZR; lia.
Qed.

Lemma R_to_int_bounds (v : R) (z : Z) :
  0 <= v <= IZR z -> (0 <= R_to_int v <= z)%Z.
Proof.
  intros [H0 Hz]; unfold R_to_int.
  destruct (Rlt_dec v 0); [lra|].
  destruct (base_Int_part v) as [Hle Hgt].
  split.
  - assert (H2 : (-1 < Int_part v)%Z) by (apply lt_IZR; lra).
    lia.
  - apply le_IZR; lra.
Qed.

Lemma np_clip_id (v : R) : 0 <= v <= 255 -> np_clip 0 255 v = v.
Proof.
  intros H; unfold np_clip.
  rewrite (Rmax_left v 0) by lra.
  apply Rmin_right; lra.
Qed.

Lemma astype_uint8_clip_255 : astype_uint8 (np_clip 0 255 255) = 255%Z.
Proof. rewrite np_clip_id by lra; unfold astype_uint8; now rewrite R_to_int_IZR. Qed.

Lemma astype_uint8_clip_0 : astype_uint8 (np_clip 0 255 0) = 0%Z.
Proof. rewrite np_clip_id by lra; unfold astype_uint8; now rewrite R_to_int_IZR. Qed.

Lemma astype_uint8_clip_range (v : R) :
  0 <= v <= 255 -> (0 <= astype_uint8 (np_clip 0 255 v) <= 255)%Z.
Proof.
  intros H; rewrite np_clip_id by assumption; unfold astype_uint8.
  pose proof (R_to_int_bounds v 255 H).
  rewrite Z.mod_small; lia.
Qed.

Example R_to_int_towards_zero :
  R_to_int (3 / 2) = 1%Z /\ R_to_int (- (1 / 2)) = 0%Z
  /\ R_to_int (- (3 / 2)) = (-1)%Z.
Proof.
  unfold R_to_int; repeat split.
  - destruct (Rlt_dec (3 / 2) 0); [lra|].
    symmetry; apply Int_part_spec; lra.
  - destruct (Rlt_dec (- (1 / 2)) 0); [|lra].
    rewrite <- (Int_part_spec (- - (1 / 2)) 0); [reflexivity | lra].
  - destruct (Rlt_dec (- (3 / 2)) 0); [|lra].
    rewrite <- (Int_part_spec (- - (3 / 2)) 1); [reflexivity | lra].
Qed.

Example slice_bound_clips :
  slice_bound 7 5 = 5%Z /\ slice_bound (-1) 5 = 4%Z /\ slice_bound (-9) 5 = 0%Z.
Proof. repeat split. Qed.

(** *** Maxima *)

Lemma fold_left_Rmax_upper (l : list R) (x : R) :
  x <= fold_left Rmax l x /\ (forall v, In v l -> v <= fold_left Rmax l x).
Proof.
  revert x; induction l as [|y l IH]; intros x; cbn [fold_left].
  - split; [lra | intros v []].
  - destruct (IH (Rmax x y)) as [H1 H2]; split.
    + apply Rle_trans with (Rmax x y); [apply Rmax_Rle; lra | exact H1].
    + intros v [Hv | Hv]; [subst v | now apply H2].
      apply Rle_trans with (Rmax x y); [apply Rmax_Rle; lra | exact H1].
Qed.

Lemma fold_left_Rmax_attained (l : list R) (x : R) :
  In (fold_left Rmax l x) (x :: l).
Proof.
  revert x; induction l as [|y l IH]; intros x; cbn [fold_left].
  - now left.
  - destruct (IH (Rmax x y)) as [H | H].
    + unfold Rmax in H at 1; destruct (Rle_dec x y).
      * right; left; exact H.
      * left; exact H.
    + right; right; exact H.
Qed.

Lemma buffer_max_spec (b : buffer) (m : R) :
  buffer_max b = Ok m ->
  In m (concat b) /\ (forall v, In v (concat b) -> v <= m).
Proof.
  unfold buffer_max; destruct (concat b) as [|x tl]; [discriminate|].
  intros [= <-]; split.
  - apply fold_left_Rmax_attained.
  - intros v [Hv | Hv].
    + subst v; apply (proj1 (fold_left_Rmax_upper tl x)).
    + now apply (proj2 (fold_left_Rmax_upper tl x)).
Qed.

Lemma buffer_max_defined (b : buffer) :
  concat b <> [] -> exists m, buffer_max b = Ok m.
Proof.
  unfold buffer_max; destruct (concat b); [congruence | eauto].
Qed.

Lemma buffer_max_empty (b : buffer) :
  concat b = [] -> buffer_max b = Raise ValueError.
Proof. unfold buffer_max; now intros ->. Qed.

(** *** All-zero buffers *)

Lemma concat_zeros_nonempty (h w : nat) :
  (0 < h)%nat -> (0 < w)%nat -> concat (zeros h w) <> [].
Proof.
  destruct h as [|h]; [lia|]; destruct w as [|w]; [lia|]; discriminate.
Qed.

Lemma in_concat_zeros (h w : nat) (v : R) : In v (concat (zeros h w)) -> v = 0.
Proof.
  intros Hv; apply in_concat in Hv; destruct Hv as (row & Hrow & Hin).
  apply repeat_spec in Hrow; subst row.
  now apply repeat_spec in Hin.
Qed.

Lemma buffer_max_zeros (h w : nat) :
  (0 < h)%nat -> (0 < w)%nat -> buffer_max (zeros h w) = Ok 0.
Proof.
  intros Hh Hw.
  destruct (buffer_max_defined (zeros h w)) as [m Hm];
    [now apply concat_zeros_nonempty|].
  rewrite Hm; f_equal.
  apply buffer_max_spec in Hm; destruct Hm as [Hin _].
  now apply in_concat_zeros in Hin.
Qed.

Lemma np_zeros_like_zeros (h w : nat) : np_zeros_like (zeros h w) = zeros h w.
Proof. unfold np_zeros_like, zeros; now rewrite !map_repeat. Qed.

Lemma zip_with_repeat {A B C : Type} (f : A -> B -> C) (a : A) (b : B) (n : nat) :
  zip_with f (repeat a n) (repeat b n) = repeat (f a b) n.
Proof. induction n as [|n IH]; cbn; [reflexivity | now rewrite IH]. Qed.

Lemma buffer_add_zeros (h w : nat) :
  buffer_add (zeros h w) (zeros h w) = zeros h w.
Proof.
  unfold buffer_add, zeros; rewrite zip_with_repeat.
  now rewrite zip_with_repeat, Rplus_0_l.
Qed.

Lemma normalize_zeros (h w : nat) :
  (0 < h)%nat -> (0 < w)%nat -> normalize (zeros h w) = Ok (zeros h w).
Proof.
  intros Hh Hw; unfold normalize; rewrite buffer_max_zeros by assumption.
  cbn [bind]; destruct (Req_dec_T 0 0) as [_|Hne]; [reflexivity | now elim Hne].
Qed.

Lemma final_rescale_zeros (h w : nat) :
  (0 < h)%nat -> (0 < w)%nat ->
  final_rescale (zeros h w) = Ok (repeat (repeat 0%Z w) h).
Proof.
  intros Hh Hw; unfold final_rescale; rewrite buffer_max_zeros by assumption.
  cbn [bind]; destruct (Req_dec_T 0 0) as [_|Hne]; [|now elim Hne].
  unfold zeros; now rewrite !map_repeat, astype_uint8_clip_0.
Qed.

Lemma np_zeros_nonneg (height width : Z) :
  (0 <= height)%Z -> (0 <= width)%Z ->
  np_zeros height width = Ok (zeros (Z.to_nat height) (Z.to_nat width)).
Proof.
  intros Hh Hw; unfold np_zeros.
  destruct (Z.ltb_spec height 0); [lia|].
  destruct (Z.ltb_spec width 0); [lia | reflexivity].
Qed.

Section Filter.

Variable gaussian_filter : buffer -> R -> buffer.

(** The filter maps an all-zero array to itself. *)
Hypothesis gaussian_filter_zeros :
  forall h w sigma, gaussian_filter (zeros h w) sigma = zeros h w.

(** With no iteration of either loop, every stage works on zeros. *)
Lemma generate_without_iterations (tp : Tape)
    (width height num_sources num_edges : Z) (edge_sigma source_sigma : R)
    (k : nat) :
  (0 < width)%Z -> (0 < height)%Z ->
  (num_sources <= 0)%Z -> (num_edges <= 0)%Z ->
  generate_thermal_heatmap gaussian_filter tp width height num_sources
    num_edges edge_sigma source_sigma k
  = Ok (repeat (repeat 0%Z (Z.to_nat width)) (Z.to_nat height)).
Proof.
  intros Hw Hh Hs He.
  unfold generate_thermal_heatmap, combined_heatmap, add_random_edges.
  rewrite np_zeros_nonneg by lia; cbn [bind].
  replace (Z.to_nat num_sources) with 0%nat by lia.
  replace (Z.to_nat num_edges) with 0%nat by lia.
  cbn [for_range bind fst].
  rewrite np_zeros_like_zeros, gaussian_filter_zeros.
  rewrite normalize_zeros by lia; cbn [bind].
  rewrite buffer_add_zeros.
  apply final_rescale_zeros; lia.
Qed.

End Filter.

(** C2. For positive width and height, [generate_thermal_heatmap] with
    no sources and no edges returns the all-zero array of shape
    (height, width) and raises nothing: every normalisation sees a zero
    maximum and leaves its buffer as it is. *)
Theorem zero_sources_zero_edges
    (gaussian_filter : buffer -> R -> buffer) (tp : Tape)
    (width height : Z) (edge_sigma source_sigma : R) (k : nat) :
  (forall h w sigma, gaussian_filter (zeros h w) sigma = zeros h w) ->
  (0 < width)%Z -> (0 < height)%Z ->
  generate_thermal_heatmap gaussian_filter tp width height 0 0
    edge_sigma source_sigma k
  = Ok (repeat (repeat 0%Z (Z.to_nat width)) (Z.to_nat height))
  /\ normalize (zeros (Z.to_nat height) (Z.to_nat width))
     = Ok (zeros (Z.to_nat height) (Z.to_nat width))
  /\ final_rescale (zeros (Z.to_nat height) (Z.to_nat width))
     = Ok (repeat (repeat 0%Z (Z.to_nat width)) (Z.to_nat height)).
Proof.
  intros Hgf Hw Hh; repeat split.
  - apply generate_without_iterations; auto; lia.
  - apply normalize_zeros; lia.
  - apply final_rescale_zeros; lia.
Qed.

Lemma zero_sources_zero_edges_witness :
  generate_thermal_heatmap identity_filter constant_tape 2 1 0 0 5 50 0
  = Ok (repeat (repeat 0%Z (Z.to_nat 2)) (Z.to_nat 1))
  /\ normalize (zeros (Z.to_nat 1) (Z.to_nat 2))
     = Ok (zeros (Z.to_nat 1) (Z.to_nat 2))
  /\ final_rescale (zeros (Z.to_nat 1) (Z.to_nat 2))
     = Ok (repeat (repeat 0%Z (Z.to_nat 2)) (Z.to_nat 1)).
Proof.
  apply (zero_sources_zero_edges identity_filter constant_tape 2 1 5 50 0).
  - reflexivity.
  - lia.
  - lia.
Defined.

(** *** Argument checking *)

Lemma for_range_invariant {S : Type} (Inv : S -> Prop) (body : S -> result S) :
  (forall st st', Inv st -> body st = Ok st' -> Inv st') ->
  forall (count : nat) (st st' : S),
    Inv st -> for_range count body st = Ok st' -> Inv st'.
Proof.
  intros Hbody count; induction count as [|count IH]; intros st st' Hst Hrun.
  - cbn in Hrun; now injection Hrun as <-.
  - cbn [for_range] in Hrun.
    destruct (body st) as [st1|e] eqn:Eb; [|discriminate].
    cbn [bind] in Hrun; eapply IH; [|exact Hrun].
    eapply Hbody; eassumption.
Qed.

Lemma concat_nil_rows {A : Type} (b : list (list A)) :
  concat b = [] <-> Forall (fun row => row = []) b.
Proof.
  induction b as [|row b IH]; cbn; [now split|].
  split.
  - intros H; apply app_eq_nil in H; destruct H as [-> H].
    constructor; [reflexivity | now apply IH].
  - intros H; inversion H as [|? ? Hr Hb]; subst.
    now apply IH in Hb as ->.
Qed.

(** Adding anything to an array without elements leaves none. *)
Lemma buffer_add_empty (a b : buffer) :
  concat a = [] -> concat (buffer_add a b) = [].
Proof.
  rewrite !concat_nil_rows; intros Ha; revert b.
  induction Ha as [|row a Hrow Ha IH]; intros [|rb b]; cbn; constructor.
  - now subst row.
  - apply IH.
Qed.

Lemma concat_zeros_empty (h w : nat) :
  h = 0%nat \/ w = 0%nat -> concat (zeros h w) = [].
Proof.
  intros [-> | ->]; [reflexivity|].
  apply concat_nil_rows, Forall_forall.
  intros row Hrow; now apply repeat_spec in Hrow.
Qed.

Lemma source_iteration_empty (gaussian_filter : buffer -> R -> buffer)
    (tp : Tape) (width height : Z) (source_sigma : R)
    (st st' : buffer * nat) :
  concat (fst st) = [] ->
  source_iteration gaussian_filter tp width height source_sigma st = Ok st' ->
  concat (fst st') = [].
Proof.
  destruct st as [heatmap k]; cbn [fst]; intros Hemp.
  unfold source_iteration, generate_heat_source.
  destruct (np_random_randint tp k 10 (width - 10)); [|discriminate].
  destruct (np_random_randint tp (k + 1) 10 (height - 10)); [|discriminate].
  cbn [bind]; intros [= <-]; cbn [fst].
  now apply buffer_add_empty.
Qed.

(** A canvas without elements makes the call fail, at the latest when
    the maximum of the source buffer is taken. *)
Lemma generate_empty_canvas (gaussian_filter : buffer -> R -> buffer)
    (tp : Tape) (width height num_sources num_edges : Z)
    (edge_sigma source_sigma : R) (k : nat) :
  (0 <= width)%Z -> (0 <= height)%Z -> (width = 0 \/ height = 0)%Z ->
  exists e,
    generate_thermal_heatmap gaussian_filter tp width height num_sources
      num_edges edge_sigma source_sigma k = Raise e.
Proof.
  intros Hw Hh Hz.
  unfold generate_thermal_heatmap, combined_heatmap.
  rewrite np_zeros_nonneg by assumption; cbn [bind].
  set (z := zeros (Z.to_nat height) (Z.to_nat width)).
  assert (Hz0 : concat (fst (z, k)) = []).
  { apply concat_zeros_empty; lia. }
  destruct (for_range (Z.to_nat num_sources)
              (source_iteration gaussian_filter tp width height source_sigma)
              (z, k)) as [[heatmap k']|e] eqn:Eloop; [|cbn; eauto].
  assert (Hemp : concat (fst (heatmap, k')) = []).
  { eapply (for_range_invariant (fun st => concat (fst st) = [])).
    - intros st st'; apply source_iteration_empty.
    - exact Hz0.
    - exact Eloop. }
  cbn [bind fst] in *.
  destruct (add_random_edges tp heatmap num_edges 128 3 k') as [ek|e];
    [|cbn; eauto].
  cbn [bind]; unfold normalize at 1.
  rewrite (buffer_max_empty heatmap Hemp); cbn; eauto.
Qed.

(** C3, as the code has it.  [generate_thermal_heatmap] checks none of
    its arguments.  A negative width or height makes its first statement,
    the allocation by [np.zeros], raise [ValueError]; a zero width or
    height makes the call fail later; a negative [num_sources] or
    [num_edges] is not rejected: the loop runs no iteration and the call
    is the call with 0. *)
Theorem generate_argument_errors
    (gaussian_filter : buffer -> R -> buffer) (tp : Tape)
    (width height num_sources num_edges : Z) (edge_sigma source_sigma : R)
    (k : nat) :
  let generate := generate_thermal_heatmap gaussian_filter tp in
  ((width < 0 \/ height < 0)%Z ->
     np_zeros height width = Raise ValueError /\
     generate width height num_sources num_edges edge_sigma source_sigma k
     = Raise ValueError) /\
  ((width <= 0 \/ height <= 0)%Z ->
     exists e,
       generate width height num_sources num_edges edge_sigma source_sigma k
       = Raise e) /\
  ((num_sources < 0)%Z ->
     generate width height num_sources num_edges edge_sigma source_sigma k
     = generate width height 0%Z num_edges edge_sigma source_sigma k) /\
  ((num_edges < 0)%Z ->
     generate width height num_sources num_edges edge_sigma source_sigma k
     = generate width height num_sources 0%Z edge_sigma source_sigma k).
Proof.
  intros generate.
  assert (Hneg : (width < 0 \/ height < 0)%Z ->
            np_zeros height width = Raise ValueError /\
            generate width height num_sources num_edges edge_sigma
              source_sigma k = Raise ValueError).
  { intros Hd.
    assert (Hz : np_zeros height width = Raise ValueError).
    { unfold np_zeros.
      destruct (Z.ltb_spec height 0); [reflexivity|].
      destruct (Z.ltb_spec width 0); [reflexivity | lia]. }
    split; [exact Hz|].
    unfold generate, generate_thermal_heatmap, combined_heatmap.
    now rewrite Hz. }
  repeat split.
  - apply Hneg; assumption.
  - apply Hneg; assumption.
  - intros Hd.
    destruct (Z.ltb_spec width 0) as [Hw|Hw];
      [exists ValueError; apply Hneg; lia|].
    destruct (Z.ltb_spec height 0) as [Hh|Hh];
      [exists ValueError; apply Hneg; lia|].
    apply generate_empty_canvas; lia.
  - intros Hs; unfold generate, generate_thermal_heatmap, combined_heatmap.
    replace (Z.to_nat num_sources) with (Z.to_nat 0) by lia; reflexivity.
  - intros He; unfold generate, generate_thermal_heatmap, combined_heatmap,
      add_random_edges.
    replace (Z.to_nat num_edges) with (Z.to_nat 0) by lia; reflexivity.
Qed.

Lemma generate_argument_errors_witness :
  (np_zeros 1 (-1) = Raise ValueError /\
   generate_thermal_heatmap identity_filter constant_tape (-1) 1 3 1 5 50 0
   = Raise ValueError) /\
  (exists e,
     generate_thermal_heatmap identity_filter constant_tape 0 1 3 1 5 50 0
     = Raise e) /\
  generate_thermal_heatmap identity_filter constant_tape 2 1 (-1) 1 5 50 0
  = generate_thermal_heatmap identity_filter constant_tape 2 1 0 1 5 50 0 /\
  generate_thermal_heatmap identity_filter constant_tape 2 1 3 (-1) 5 50 0
  = generate_thermal_heatmap identity_filter constant_tape 2 1 3 0 5 50 0.
Proof.
  split; [|split; [|split]].
  - apply (generate_argument_errors identity_filter constant_tape
             (-1) 1 3 1 5 50 0); lia.
  - apply (generate_argument_errors identity_filter constant_tape
             0 1 3 1 5 50 0); lia.
  - apply (generate_argument_errors identity_filter constant_tape
             2 1 (-1) 1 5 50 0); lia.
  - apply (generate_argument_errors identity_filter constant_tape
             2 1 3 (-1) 5 50 0); lia.
Defined.

(** A call with negative counts is not rejected: it returns the heatmap
    of the call without sources and edges. *)
Lemma negative_counts_accepted :
  (-1 < 0)%Z /\
  generate_thermal_heatmap identity_filter constant_tape 2 1 (-1) (-1) 5 50 0
  = Ok [[0; 0]]%Z.
Proof.
  split; [lia|].
  apply (generate_without_iterations identity_filter
           (fun _ _ _ => eq_refl) constant_tape 2 1 (-1) (-1) 5 50 0); lia.
Qed.

(** *** Stamping a heat source *)

Lemma mapi_from_length {A B : Type} (f : Z -> A -> B) (i : Z) (l : list A) :
  length (mapi_from f i l) = length l.
Proof.
  revert i; induction l as [|x l IH]; intros i; cbn; [reflexivity|].
  now rewrite IH.
Qed.

Lemma mapi_from_nth_error {A B : Type} (f : Z -> A -> B) (l : list A) :
  forall (i : Z) (n : nat),
    nth_error (mapi_from f i l) n
    = option_map (f (i + Z.of_nat n)%Z) (nth_error l n).
Proof.
  induction l as [|x l IH]; intros i [|n]; cbn [mapi_from nth_error option_map];
    try reflexivity.
  - now rewrite Z.add_0_r.
  - rewrite IH; do 2 f_equal; lia.
Qed.

Lemma pixel_np_zeros_like (b : buffer) (r c : nat) :
  pixel (np_zeros_like b) r c = option_map (fun _ => 0) (pixel b r c).
Proof.
  unfold pixel, np_zeros_like; rewrite nth_error_map.
  destruct (nth_error b r) as [row|]; cbn [option_map]; [|reflexivity].
  apply nth_error_map.
Qed.

Lemma mapi_from_rows (g : Z -> list R -> list R) (b : buffer) :
  (forall j row, length (g j row) = length row) ->
  forall i, map (@length R) (mapi_from g i b) = map (@length R) b.
Proof.
  intros Hg; induction b as [|row b IH]; intros i; cbn [mapi_from map];
    [reflexivity|].
  now rewrite IH, Hg.
Qed.

Lemma assign_slice2_rows (b : buffer) (r0 r1 c0 c1 : Z) (v : R) :
  map (@length R) (assign_slice2 b r0 r1 c0 c1 v) = map (@length R) b.
Proof.
  apply mapi_from_rows; intros j row.
  destruct (in_slice r0 r1 (shape0 b) j); [apply mapi_from_length | reflexivity].
Qed.

Lemma np_zeros_like_rows (b : buffer) :
  map (@length R) (np_zeros_like b) = map (@length R) b.
Proof.
  unfold np_zeros_like; rewrite map_map.
  apply map_ext; intros row; apply length_map.
Qed.

(** The element at an existing position after [b[r0:r1, c0:c1] = v]. *)
Lemma pixel_assign_slice2 (b : buffer) (r0 r1 c0 c1 : Z) (v : R)
    (r c : nat) (row : list R) (old : R) :
  nth_error b r = Some row -> nth_error row c = Some old ->
  pixel (assign_slice2 b r0 r1 c0 c1 v) r c
  = Some (if in_slice r0 r1 (shape0 b) (Z.of_nat r)
             && in_slice c0 c1 (Z.of_nat (length row)) (Z.of_nat c)
          then v else old).
Proof.
  intros Hrow Hold; unfold pixel, assign_slice2.
  rewrite mapi_from_nth_error, Hrow; cbn [option_map Z.add].
  destruct (in_slice r0 r1 (shape0 b) (Z.of_nat r)); cbn [andb].
  - rewrite mapi_from_nth_error, Hold; reflexivity.
  - exact Hold.
Qed.

Lemma in_slice_nonneg (start stop len i : Z) :
  (0 <= start)%Z -> (0 <= stop)%Z -> (0 <= i < len)%Z ->
  in_slice start stop len i = ((start <=? i) && (i <? stop))%Z.
Proof.
  intros Hs Ht Hi; unfold in_slice, slice_bound.
  destruct (Z.ltb_spec start 0); [lia|].
  destruct (Z.ltb_spec stop 0); [lia|].
  destruct (Z.leb_spec (Z.min start len) i), (Z.leb_spec start i),
    (Z.ltb_spec i (Z.min stop len)), (Z.ltb_spec i stop);
    cbn; try reflexivity; lia.
Qed.

(** C4, as the code has it.  [generate_heat_source] raises nothing,
    whatever the position and size of the stamp: the slice assignment is
    clipped to the canvas as Python slices are.  The buffer handed to the
    filter has the shape of the canvas; an existing position holds
    [intensity] when it lies in the (clipped) slice and 0 otherwise; with
    non-negative slice starts these are exactly the canvas positions inside
    [[y - size//2, y + size//2] x [x - size//2, x + size//2]]. *)
Theorem generate_heat_source_clips
    (gaussian_filter : buffer -> R -> buffer) (heatmap : buffer)
    (x y : Z) (intensity : R) (size : Z) (spread_sigma : R) :
  let stamp := heat_source_stamp heatmap x y intensity size in
  generate_heat_source gaussian_filter heatmap x y intensity size spread_sigma
  = Ok (gaussian_filter stamp spread_sigma) /\
  map (@length R) stamp = map (@length R) heatmap /\
  (forall (r c : nat) (row : list R) (old : R),
     nth_error heatmap r = Some row -> nth_error row c = Some old ->
     pixel stamp r c
     = Some (if in_slice (y - size / 2) (y + size / 2 + 1)
                  (shape0 heatmap) (Z.of_nat r)
                && in_slice (x - size / 2) (x + size / 2 + 1)
                     (Z.of_nat (length row)) (Z.of_nat c)
             then intensity else 0)) /\
  ((0 <= size)%Z -> (0 <= y - size / 2)%Z -> (0 <= x - size / 2)%Z ->
   forall (r c : nat) (old : R),
     pixel heatmap r c = Some old ->
     pixel stamp r c
     = Some (if ((y - size / 2 <=? Z.of_nat r) && (Z.of_nat r <=? y + size / 2)
                 && ((x - size / 2 <=? Z.of_nat c)
                     && (Z.of_nat c <=? x + size / 2)))%Z
             then intensity else 0)).
Proof.
  intros stamp.
  assert (Hpix : forall (r c : nat) (row : list R) (old : R),
     nth_error heatmap r = Some row -> nth_error row c = Some old ->
     pixel stamp r c
     = Some (if in_slice (y - size / 2) (y + size / 2 + 1)
                  (shape0 heatmap) (Z.of_nat r)
                && in_slice (x - size / 2) (x + size / 2 + 1)
                     (Z.of_nat (length row)) (Z.of_nat c)
             then intensity else 0)).
  { intros r c row old Hrow Hold.
    unfold stamp, heat_source_stamp.
    assert (Hrow0 : nth_error (np_zeros_like heatmap) r
                    = Some (map (fun _ => 0) row)).
    { unfold np_zeros_like; now rewrite nth_error_map, Hrow. }
    assert (Hold0 : nth_error (map (fun _ : R => 0) row) c = Some 0).
    { now rewrite nth_error_map, Hold. }
    rewrite (pixel_assign_slice2 _ _ _ _ _ _ r c _ 0 Hrow0 Hold0).
    rewrite length_map.
    unfold shape0, np_zeros_like; rewrite length_map; reflexivity. }
  split; [reflexivity|].
  split; [unfold stamp, heat_source_stamp;
          now rewrite assign_slice2_rows, np_zeros_like_rows|].
  split; [exact Hpix|].
  intros Hsize Hy Hx r c old Hold.
  unfold pixel in Hold.
  destruct (nth_error heatmap r) as [row|] eqn:Hrow; [|discriminate].
  rewrite (Hpix r c row old Hrow Hold).
  assert (Hr : (r < length heatmap)%nat).
  { apply nth_error_Some; congruence. }
  assert (Hc : (c < length row)%nat).
  { apply nth_error_Some; congruence. }
  assert (H2 : (0 <= size / 2)%Z) by (apply Z.div_pos; lia).
  rewrite !in_slice_nonneg by (unfold shape0; lia).
  do 2 f_equal.
  destruct (Z.ltb_spec (Z.of_nat r) (y + size / 2 + 1)),
    (Z.leb_spec (Z.of_nat r) (y + size / 2)),
    (Z.ltb_spec (Z.of_nat c) (x + size / 2 + 1)),
    (Z.leb_spec (Z.of_nat c) (x + size / 2));
    try reflexivity; lia.
Qed.

Lemma generate_heat_source_clips_witness :
  pixel (heat_source_stamp (zeros 3 3) 2 2 7 5) 2 1
  = Some (if ((2 - 5 / 2 <=? Z.of_nat 2) && (Z.of_nat 2 <=? 2 + 5 / 2)
              && ((2 - 5 / 2 <=? Z.of_nat 1)
                  && (Z.of_nat 1 <=? 2 + 5 / 2)))%Z
          then 7 else 0).
Proof.
  apply (proj2 (proj2 (proj2
           (generate_heat_source_clips identity_filter (zeros 3 3) 2 2 7 5 3)))
         ltac:(lia) ltac:(vm_compute; discriminate)
         ltac:(vm_compute; discriminate) 2%nat 1%nat 0).
  reflexivity.
Defined.

(** A stamp that reaches beyond the canvas is clipped, not refused. *)
Lemma stamp_beyond_canvas_accepted :
  region_in_bounds (zeros 3 3) 2 2 5 = false /\
  generate_heat_source identity_filter (zeros 3 3) 2 2 7 5 3
  = Ok [[7; 7; 7]; [7; 7; 7]; [7; 7; 7]] /\
  generate_heat_source identity_filter (zeros 3 3) 2 2 7 5 3
  <> Raise IndexError.
Proof.
  split; [reflexivity|]; split; [reflexivity | discriminate].
Qed.

(** *** Sampling the edge points *)

(** The outcome of one run of the sampler, for any request of at least
    one point. *)
Lemma get_random_points_result (tp : Tape) (n : Z) (scale : R) (k : nat) :
  (0 < n)%Z ->
  exists j : nat,
    get_random_points tp n scale None 0 k
    = Ok (map (pscale scale) (tape_rand tp (k + j) (Z.to_nat n)), S (k + j)).
Proof.
  intros Hn.
  destruct (bezier_facts.mindst_or_default_ok None n) as (m & Hm & Hm0); [lia|].
  destruct (bezier_facts.get_random_points_loop tp n scale m ltac:(lia) Hm0
              (200 - 0)%nat 0%nat k eq_refl) as (j & _ & Hrun & _).
  exists j.
  now rewrite (bezier_facts.get_random_points_resolved tp n scale None m).
Qed.

(** C5, as the code has it.  Every iteration of [add_random_edges] draws
    its point set with [n = num_points] and [scale = heatmap.shape[0]],
    the number of rows, which is the height of the canvas; the sampled
    coordinates therefore range over [[0, height]]. *)
Theorem edge_points_scaled_by_height (tp : Tape) (heatmap : buffer)
    (edge_intensity num_points : Z) (k : nat) :
  tape_ok tp -> (2 <= num_points)%Z ->
  let height := IZR (Z.of_nat (length heatmap)) in
  (forall edges_map : buffer,
     edge_iteration tp heatmap edge_intensity num_points (edges_map, k)
     = (rp <- get_random_points tp num_points height None 0 k ;;
        let (random_points, k') := rp in
        xya <- get_bezier_curve random_points (2 / 10) 0 ;;
        Ok (fold_left (plot_sample heatmap edge_intensity)
              (combine (fst (fst xya)) (snd (fst xya))) edges_map, k'))) /\
  exists (a : list (R * R)) (k' : nat),
    edge_points tp heatmap num_points k = Ok (map (pscale height) a, k') /\
    length a = Z.to_nat num_points /\
    (forall q, In q a -> 0 <= fst q < 1 /\ 0 <= snd q < 1) /\
    (forall q, In q (map (pscale height) a) ->
       0 <= fst q <= height /\ 0 <= snd q <= height).
Proof.
  intros Htp Hn height; split; [reflexivity|].
  destruct (get_random_points_result tp num_points height k) as [j Hj]; [lia|].
  exists (tape_rand tp (k + j) (Z.to_nat num_points)), (S (k + j)).
  assert (Hh : 0 <= height) by (apply IZR_le; lia).
  repeat split.
  - exact Hj.
  - apply (rand_length tp Htp).
  - apply (rand_unit tp Htp _ _ _ H).
  - apply (rand_unit tp Htp _ _ _ H).
  - apply (rand_unit tp Htp _ _ _ H).
  - apply (rand_unit tp Htp _ _ _ H).
  - apply in_map_iff in H; destruct H as (u & <- & Hu).
    apply (rand_unit tp Htp) in Hu; cbn; nra.
  - apply in_map_iff in H; destruct H as (u & <- & Hu).
    apply (rand_unit tp Htp) in Hu; cbn; nra.
  - apply in_map_iff in H; destruct H as (u & <- & Hu).
    apply (rand_unit tp Htp) in Hu; cbn; nra.
  - apply in_map_iff in H; destruct H as (u & <- & Hu).
    apply (rand_unit tp Htp) in Hu; cbn; nra.
Qed.

Lemma edge_points_scaled_by_height_witness :
  exists (a : list (R * R)) (k' : nat),
    edge_points constant_tape [[0; 0]] 3 0
    = Ok (map (pscale (IZR (Z.of_nat (length [[0; 0]])))) a, k') /\
    length a = Z.to_nat 3 /\
    (forall q, In q a -> 0 <= fst q < 1 /\ 0 <= snd q < 1) /\
    (forall q, In q (map (pscale (IZR (Z.of_nat (length [[0; 0]])))) a) ->
       0 <= fst q <= IZR (Z.of_nat (length [[0; 0]]))
       /\ 0 <= snd q <= IZR (Z.of_nat (length [[0; 0]]))).
Proof.
  apply (edge_points_scaled_by_height constant_tape [[0; 0]] 128 3 0).
  - exact bezier_facts.constant_tape_ok.
  - lia.
Defined.

(** On a canvas one row high and two columns wide the points are scaled
    by 1, not by the width 2. *)
Lemma edge_points_not_scaled_by_width :
  shape0 [[0; 0]] = 1%Z /\ shape1 [[0; 0]] = 2%Z /\
  edge_points constant_tape [[0; 0]] 3 0
  <> get_random_points constant_tape 3 (IZR (shape1 [[0; 0]])) None 0 0.
Proof.
  split; [reflexivity|]; split; [reflexivity|].
  unfold edge_points.
  destruct (get_random_points_result constant_tape 3
              (IZR (shape0 [[0; 0]])) 0) as [j1 H1]; [lia|].
  destruct (get_random_points_result constant_tape 3
              (IZR (shape1 [[0; 0]])) 0) as [j2 H2]; [lia|].
  rewrite H1, H2; cbn; unfold pscale; cbn.
  intros E; injection E as E _; lra.
Qed.

(** *** The canvas argument of [generate_heat_source] *)

Lemma set_row_last {A : Type} (s : list A) (a v : A) :
  set_row (s ++ [a]) (length s) v = s ++ [v].
Proof. induction s as [|x s IH]; cbn; [reflexivity | now rewrite IH]. Qed.

Lemma deref_alloc_new (s : objects.store) (b : buffer) :
  objects.deref (s ++ [b]) (length s) = b.
Proof. unfold objects.deref; now rewrite nth_middle. Qed.

Lemma deref_alloc_old (s : objects.store) (b : buffer) (l : objects.ref) :
  (l < length s)%nat -> objects.deref (s ++ [b]) l = objects.deref s l.
Proof. intros Hl; unfold objects.deref; now rewrite app_nth1. Qed.

Lemma set_row_length {A : Type} (s : list A) (i : nat) (v : A) :
  length (set_row s i v) = length s.
Proof.
  revert i; induction s as [|x s IH]; intros [|i]; cbn; auto.
Qed.

Lemma nth_set_row_same {A : Type} (s : list A) (i : nat) (v d : A) :
  (i < length s)%nat -> nth i (set_row s i v) d = v.
Proof.
  revert i; induction s as [|x s IH]; intros [|i] Hi; cbn in *; try lia;
    [reflexivity|].
  apply IH; lia.
Qed.

Lemma nth_set_row_other {A : Type} (s : list A) (i l : nat) (v d : A) :
  l <> i -> nth l (set_row s i v) d = nth l s d.
Proof.
  revert i l; induction s as [|x s IH]; intros [|i] [|l] Hl; cbn;
    try reflexivity; try congruence.
  apply IH; congruence.
Qed.

(** The store after a call: two new objects, nothing else touched. *)
Lemma objects_generate_heat_source_eq
    (gaussian_filter : buffer -> R -> buffer) (s : objects.store)
    (heatmap : objects.ref) (x y : Z) (intensity : R) (size : Z) (sigma : R) :
  let stamp := heat_source_stamp (objects.deref s heatmap) x y intensity size in
  objects.generate_heat_source gaussian_filter s heatmap x y intensity size sigma
  = ((s ++ [stamp]) ++ [gaussian_filter stamp sigma], S (length s)).
Proof.
  intros stamp; unfold objects.generate_heat_source, objects.alloc,
    objects.update.
  rewrite deref_alloc_new, set_row_last, deref_alloc_new.
  rewrite length_app; cbn [length]; rewrite Nat.add_1_r; reflexivity.
Qed.

Lemma np_zeros_like_same_shape (a b : buffer) :
  map (@length R) a = map (@length R) b -> np_zeros_like a = np_zeros_like b.
Proof.
  unfold np_zeros_like; revert b.
  induction a as [|ra a IH]; intros [|rb b] H; cbn in *; try discriminate;
    [reflexivity|].
  injection H as Hr H; f_equal; [|now apply IH].
  rewrite !map_const; now rewrite Hr.
Qed.

Lemma heat_source_stamp_same_shape (a b : buffer) (x y : Z) (intensity : R)
    (size : Z) :
  map (@length R) a = map (@length R) b ->
  heat_source_stamp a x y intensity size = heat_source_stamp b x y intensity size.
Proof.
  intros H; unfold heat_source_stamp.
  now rewrite (np_zeros_like_same_shape a b H).
Qed.

Lemma heat_source_stamp_rows (a : buffer) (x y : Z) (intensity : R) (size : Z) :
  map (@length R) (heat_source_stamp a x y intensity size) = map (@length R) a.
Proof.
  unfold heat_source_stamp; now rewrite assign_slice2_rows, np_zeros_like_rows.
Qed.

Lemma zip_with_Rplus_length (a b : list R) :
  length a = length b -> length (zip_with Rplus a b) = length a.
Proof. intros H; rewrite bezier_facts.zip_with_length, H; apply Nat.min_id. Qed.

Lemma buffer_add_rows (a b : buffer) :
  map (@length R) b = map (@length R) a ->
  map (@length R) (buffer_add a b) = map (@length R) a.
Proof.
  unfold buffer_add; revert b.
  induction a as [|ra a IH]; intros [|rb b] H; cbn in *; try discriminate;
    [reflexivity|].
  injection H as Hr H; f_equal; [|now apply IH].
  now apply zip_with_Rplus_length.
Qed.

Section Accumulation.

Variable gaussian_filter : buffer -> R -> buffer.

(** The filter returns an array of the shape of its input. *)
Hypothesis gaussian_filter_shape :
  forall b sigma,
    map (@length R) (gaussian_filter b sigma) = map (@length R) b.

Variables (tp : Tape) (width height : Z) (source_sigma : R) (canvas : buffer).

Lemma source_loop_sum (n : nat) :
  (20 < width)%Z -> (20 < height)%Z ->
  forall (heatmap : buffer) (k : nat),
    map (@length R) heatmap = map (@length R) canvas ->
    for_range n (source_iteration gaussian_filter tp width height source_sigma)
      (heatmap, k)
    = Ok (fold_left buffer_add
            (map (nth_source gaussian_filter tp width height source_sigma
                    canvas k) (seq 0 n))
            heatmap,
          (k + 3 * n)%nat).
Proof.
  intros Hw Hh; induction n as [|n IH]; intros heatmap k Hshape.
  - cbn; now rewrite Nat.add_0_r.
  - cbn [for_range]; unfold source_iteration at 1.
    unfold np_random_randint, generate_heat_source, np_random_uniform.
    destruct (Z.ltb_spec 10 (width - 10)); [|lia].
    destruct (Z.ltb_spec 10 (height - 10)); [|lia].
    cbn [bind].
    rewrite IH.
    + cbn [seq map fold_left]; rewrite <- seq_shift, map_map.
      replace (k + 3 * S n)%nat with (k + 3 + 3 * n)%nat by lia.
      assert (Hmap :
                map (fun i => nth_source gaussian_filter tp width height
                                source_sigma canvas k (S i)) (seq 0 n)
                = map (nth_source gaussian_filter tp width height
                         source_sigma canvas (k + 3)) (seq 0 n)).
      { apply map_ext; intros i.
        unfold nth_source.
        replace (k + 3 + 3 * i)%nat with (k + 3 * S i)%nat by lia.
        reflexivity. }
      assert (Hsrc : nth_source gaussian_filter tp width height source_sigma
                       canvas k 0%nat
                = gaussian_filter
                    (heat_source_stamp heatmap
                       (tape_randint tp k 10 (width - 10))
                       (tape_randint tp (k + 1) 10 (height - 10))
                       (tape_uniform tp (k + 2) 200 255) 5) source_sigma).
      { unfold nth_source.
        rewrite Nat.mul_0_r, !Nat.add_0_r.
        f_equal; apply heat_source_stamp_same_shape.
        now rewrite np_zeros_like_rows. }
      now rewrite Hmap, Hsrc.
    + rewrite buffer_add_rows; [assumption|].
      now rewrite gaussian_filter_shape, heat_source_stamp_rows.
Qed.

End Accumulation.

(** C10. [generate_heat_source] neither reads nor writes the elements of
    the array it is given.  With arrays as objects: the call leaves every
    existing object as it was, the caller's array included, and returns an
    object that did not exist before, whose elements are those of the
    value-level function; the caller's [+=] then changes the canvas alone,
    adding a stamp made on zeros; two canvases of one shape give one
    result.  Hence the source loop of the compositor computes the
    elementwise sum, over the zero canvas, of stamps each made on a zero
    canvas. *)
Theorem generate_heat_source_uses_shape_only
    (gaussian_filter : buffer -> R -> buffer) :
  (forall (s : objects.store) (heatmap : objects.ref) (x y : Z)
          (intensity : R) (size : Z) (sigma : R),
     let out :=
       objects.generate_heat_source gaussian_filter s heatmap x y
         intensity size sigma in
     (length s <= snd out < length (fst out))%nat /\
     (forall l, (l < length s)%nat ->
        objects.deref (fst out) l = objects.deref s l) /\
     generate_heat_source gaussian_filter (objects.deref s heatmap) x y
       intensity size sigma
     = Ok (objects.deref (fst out) (snd out))) /\
  (forall (s : objects.store) (heatmap : objects.ref) (x y : Z)
          (intensity sigma : R),
     (heatmap < length s)%nat ->
     let s' :=
       objects.accumulate_source gaussian_filter s heatmap x y intensity
         sigma in
     objects.deref s' heatmap
     = buffer_add (objects.deref s heatmap)
         (gaussian_filter
            (heat_source_stamp (np_zeros_like (objects.deref s heatmap))
               x y intensity 5) sigma) /\
     (forall l, (l < length s)%nat -> l <> heatmap ->
        objects.deref s' l = objects.deref s l)) /\
  (forall (h1 h2 : buffer) (x y : Z) (intensity : R) (size : Z) (sigma : R),
     map (@length R) h1 = map (@length R) h2 ->
     generate_heat_source gaussian_filter h1 x y intensity size sigma
     = generate_heat_source gaussian_filter h2 x y intensity size sigma) /\
  ((forall b sigma,
      map (@length R) (gaussian_filter b sigma) = map (@length R) b) ->
   forall (tp : Tape) (width height : Z) (sigma : R) (n h w k : nat),
     (20 < width)%Z -> (20 < height)%Z ->
     for_range n (source_iteration gaussian_filter tp width height sigma)
       (zeros h w, k)
     = Ok (fold_left buffer_add
             (map (nth_source gaussian_filter tp width height sigma
                     (zeros h w) k) (seq 0 n))
             (zeros h w),
           (k + 3 * n)%nat) /\
     forall i,
       generate_heat_source gaussian_filter (zeros h w)
         (tape_randint tp (k + 3 * i) 10 (width - 10))
         (tape_randint tp (k + 3 * i + 1) 10 (height - 10))
         (tape_uniform tp (k + 3 * i + 2) 200 255) 5 sigma
       = Ok (nth_source gaussian_filter tp width height sigma (zeros h w) k i)).
Proof.
  split; [|split; [|split]].
  - intros s heatmap x y intensity size sigma out; subst out.
    rewrite objects_generate_heat_source_eq; cbn [fst snd].
    repeat split.
    + lia.
    + rewrite !length_app; cbn [length]; lia.
    + intros l Hl.
      rewrite deref_alloc_old by (rewrite length_app; cbn [length]; lia).
      now apply deref_alloc_old.
    + unfold generate_heat_source; f_equal.
      replace (S (length s))
        with (length (s ++ [heat_source_stamp (objects.deref s heatmap)
                              x y intensity size]))
        by (rewrite length_app; cbn [length]; lia).
      now rewrite deref_alloc_new.
  - intros s heatmap x y intensity sigma Hh s'; subst s'.
    unfold objects.accumulate_source.
    rewrite objects_generate_heat_source_eq.
    set (stamp := heat_source_stamp (objects.deref s heatmap) x y intensity 5).
    set (s1 := (s ++ [stamp]) ++ [gaussian_filter stamp sigma]).
    assert (Hlen : length s1 = S (S (length s))).
    { unfold s1; rewrite !length_app; cbn [length]; lia. }
    assert (Hold : forall l, (l < length s)%nat ->
                     objects.deref s1 l = objects.deref s l).
    { intros l Hl; unfold s1.
      rewrite deref_alloc_old by (rewrite length_app; cbn [length]; lia).
      now apply deref_alloc_old. }
    assert (Hsrc : objects.deref s1 (S (length s)) = gaussian_filter stamp sigma).
    { unfold s1.
      replace (S (length s)) with (length (s ++ [stamp]))
        by (rewrite length_app; cbn [length]; lia).
      apply deref_alloc_new. }
    split.
    + unfold objects.update, objects.deref at 1.
      rewrite nth_set_row_same by lia.
      rewrite Hold, Hsrc by assumption.
      do 2 f_equal; unfold stamp.
      apply heat_source_stamp_same_shape.
      now rewrite np_zeros_like_rows.
    + intros l Hl Hne; unfold objects.update, objects.deref at 1.
      rewrite nth_set_row_other by assumption.
      now apply Hold.
  - intros h1 h2 x y intensity size sigma Hshape.
    unfold generate_heat_source.
    now rewrite (heat_source_stamp_same_shape h1 h2).
  - intros Hgf tp width height sigma n h w k Hw Hh; split.
    + now apply source_loop_sum.
    + intros i; unfold generate_heat_source, nth_source.
      now rewrite np_zeros_like_zeros.
Qed.

(** *** Non-negative buffers *)

Lemma mapi_from_Forall {A B : Type} (P : A -> Prop) (Q : B -> Prop)
    (f : Z -> A -> B) (l : list A) :
  (forall i x, P x -> Q (f i x)) ->
  forall i, Forall P l -> Forall Q (mapi_from f i l).
Proof.
  intros Hf; induction l as [|x l IH]; intros i Hl; cbn [mapi_from];
    inversion Hl; subst; constructor; auto.
Qed.

Lemma nonneg_assign_slice2 (b : buffer) (r0 r1 c0 c1 : Z) (v : R) :
  0 <= v -> nonneg b -> nonneg (assign_slice2 b r0 r1 c0 c1 v).
Proof.
  intros Hv; unfold nonneg, assign_slice2; apply mapi_from_Forall.
  intros i row Hrow; destruct (in_slice r0 r1 (shape0 b) i); [|assumption].
  revert Hrow; apply mapi_from_Forall.
  intros j old Hold; now destruct (in_slice _ _ _ _).
Qed.

Lemma nonneg_assign_pixel (b : buffer) (yi xi : Z) (v : R) :
  0 <= v -> nonneg b -> nonneg (assign_pixel b yi xi v).
Proof.
  intros Hv; unfold nonneg, assign_pixel; apply mapi_from_Forall.
  intros i row Hrow; destruct (i =? yi)%Z; [|assumption].
  revert Hrow; apply mapi_from_Forall.
  intros j old Hold; now destruct (j =? xi)%Z.
Qed.

Lemma nonneg_np_zeros_like (b : buffer) : nonneg (np_zeros_like b).
Proof.
  unfold nonneg, np_zeros_like; apply Forall_forall; intros row Hrow.
  apply in_map_iff in Hrow; destruct Hrow as (row0 & <- & _).
  apply Forall_forall; intros v Hv.
  apply in_map_iff in Hv; destruct Hv as (_ & <- & _); lra.
Qed.

Lemma nonneg_zeros (h w : nat) : nonneg (zeros h w).
Proof. rewrite <- np_zeros_like_zeros; apply nonneg_np_zeros_like. Qed.

Lemma zip_with_Forall {A B C : Type} (P : A -> Prop) (Q : B -> Prop)
    (S : C -> Prop) (f : A -> B -> C) :
  (forall x y, P x -> Q y -> S (f x y)) ->
  forall l m, Forall P l -> Forall Q m -> Forall S (zip_with f l m).
Proof.
  intros Hf l; induction l as [|x l IH]; intros [|y m] Hl Hm; cbn;
    try constructor; inversion Hl; inversion Hm; subst; auto.
Qed.

Lemma nonneg_buffer_add (a b : buffer) :
  nonneg a -> nonneg b -> nonneg (buffer_add a b).
Proof.
  unfold nonneg, buffer_add; apply zip_with_Forall.
  intros ra rb; apply zip_with_Forall; intros; lra.
Qed.

Lemma nonneg_concat (b : buffer) :
  nonneg b <-> (forall v, In v (concat b) -> 0 <= v).
Proof.
  unfold nonneg; rewrite <- Forall_concat, Forall_forall; reflexivity.
Qed.

Lemma nonneg_buffer_map (f : R -> R) (b : buffer) :
  (forall v, In v (concat b) -> 0 <= f v) -> nonneg (buffer_map f b).
Proof.
  intros Hf; apply nonneg_concat; unfold buffer_map.
  rewrite <- concat_map; intros v Hv.
  apply in_map_iff in Hv; destruct Hv as (u & <- & Hu); auto.
Qed.

Lemma nonneg_normalize (b b' : buffer) :
  normalize b = Ok b' -> nonneg b -> nonneg b'.
Proof.
  unfold normalize; destruct (buffer_max b) as [m|] eqn:Em; [|discriminate].
  cbn [bind]; intros [= <-] Hb.
  destruct (Req_dec_T m 0) as [|Hm]; [assumption|].
  destruct (buffer_max_spec b m Em) as [Hin Hub].
  assert (Hm0 : 0 < m).
  { pose proof (proj1 (nonneg_concat b) Hb m Hin); lra. }
  apply nonneg_buffer_map; intros v Hv.
  pose proof (proj1 (nonneg_concat b) Hb v Hv).
  apply Rmult_le_pos; [assumption|].
  apply Rlt_le, Rinv_0_lt_compat; assumption.
Qed.

Lemma nonneg_plot_samples (heatmap : buffer) (edge_intensity : Z)
    (samples : list (R * R)) (edges_map : buffer) :
  (0 <= edge_intensity)%Z -> nonneg edges_map ->
  nonneg (fold_left (plot_sample heatmap edge_intensity) samples edges_map).
Proof.
  intros Hi; revert edges_map.
  induction samples as [|q samples IH]; intros edges_map Hn; cbn [fold_left];
    [assumption|].
  apply IH; unfold plot_sample.
  destruct (_ && _)%bool; [|assumption].
  apply nonneg_assign_pixel; [apply IZR_le; assumption | assumption].
Qed.

Lemma nonneg_add_random_edges (tp : Tape) (heatmap : buffer)
    (num_edges edge_intensity num_points : Z) (k : nat) (ek : buffer * nat) :
  (0 <= edge_intensity)%Z ->
  add_random_edges tp heatmap num_edges edge_intensity num_points k = Ok ek ->
  nonneg (fst ek).
Proof.
  intros Hi; unfold add_random_edges.
  apply (for_range_invariant (fun st => nonneg (fst st))).
  - intros [edges_map k0] st' Hn; cbn [fst] in Hn.
    unfold edge_iteration.
    destruct (edge_points tp heatmap num_points k0) as [[pts k1]|];
      [|discriminate].
    cbn [bind].
    destruct (get_bezier_curve pts (2 / 10) 0) as [xya|]; [|discriminate].
    cbn [bind]; intros [= <-]; cbn [fst].
    now apply nonneg_plot_samples.
  - apply nonneg_np_zeros_like.
Qed.

Section Ceiling.

Variable gaussian_filter : buffer -> R -> buffer.

(** The filter has non-negative weights. *)
Hypothesis gaussian_filter_nonneg :
  forall b sigma, nonneg b -> nonneg (gaussian_filter b sigma).

Variable tp : Tape.
Hypothesis tp_ok : tape_ok tp.

Lemma nonneg_source_loop (width height : Z) (source_sigma : R) (n : nat)
    (st st' : buffer * nat) :
  nonneg (fst st) ->
  for_range n (source_iteration gaussian_filter tp width height source_sigma) st
  = Ok st' ->
  nonneg (fst st').
Proof.
  apply (for_range_invariant (fun st => nonneg (fst st))).
  intros [heatmap k] st1 Hn; cbn [fst] in Hn.
  unfold source_iteration, generate_heat_source, heat_source_stamp.
  destruct (np_random_randint tp k 10 (width - 10)); [|discriminate].
  destruct (np_random_randint tp (k + 1) 10 (height - 10)); [|discriminate].
  cbn [bind]; intros [= <-]; cbn [fst].
  apply nonneg_buffer_add; [assumption|].
  apply gaussian_filter_nonneg, nonneg_assign_slice2;
    [|apply nonneg_np_zeros_like].
  unfold np_random_uniform.
  pose proof (uniform_range tp tp_ok (k + 2) 200 255 ltac:(lra)); lra.
Qed.

(** The sum of the two normalised buffers has no negative element. *)
Lemma nonneg_combined_heatmap (width height num_sources num_edges : Z)
    (edge_sigma source_sigma : R) (k : nat) (c : buffer) :
  combined_heatmap gaussian_filter tp width height num_sources num_edges
    edge_sigma source_sigma k = Ok c ->
  nonneg c.
Proof.
  unfold combined_heatmap, np_zeros.
  destruct ((height <? 0) || (width <? 0))%Z; [discriminate|].
  cbn [bind].
  destruct (for_range _ _ _) as [[heatmap k']|] eqn:Eloop; [|discriminate].
  apply nonneg_source_loop in Eloop; [|apply nonneg_zeros].
  cbn [bind fst] in *.
  destruct (add_random_edges tp heatmap num_edges 128 3 k') as [ek|] eqn:Ee;
    [|discriminate].
  apply nonneg_add_random_edges in Ee; [|lia].
  cbn [bind].
  destruct (normalize heatmap) as [hn|] eqn:Eh; [|discriminate].
  cbn [bind].
  destruct (normalize (gaussian_filter (fst ek) edge_sigma)) as [en|] eqn:En;
    [|discriminate].
  cbn [bind]; intros [= <-].
  apply nonneg_buffer_add.
  - eapply nonneg_normalize; eassumption.
  - eapply nonneg_normalize; [eassumption|].
    now apply gaussian_filter_nonneg.
Qed.

End Ceiling.

(** *** The final rescale *)

Lemma fold_left_Zmax_upper (l : list Z) (x : Z) :
  (x <= fold_left Z.max l x)%Z /\
  (forall v, In v l -> (v <= fold_left Z.max l x)%Z).
Proof.
  revert x; induction l as [|y l IH]; intros x; cbn [fold_left].
  - split; [lia | intros v []].
  - destruct (IH (Z.max x y)) as [H1 H2]; split; [lia|].
    intros v [Hv | Hv]; [subst v; lia | now apply H2].
Qed.

Lemma fold_left_Zmax_bound (l : list Z) (x m : Z) :
  (x <= m)%Z -> (forall v, In v l -> (v <= m)%Z) ->
  (fold_left Z.max l x <= m)%Z.
Proof.
  revert x; induction l as [|y l IH]; intros x Hx Hl; cbn [fold_left];
    [assumption|].
  apply IH; [|intros v Hv; apply Hl; now right].
  pose proof (Hl y (or_introl eq_refl)); lia.
Qed.

Lemma heatmap_max_eq (h : list (list Z)) (m : Z) :
  In m (concat h) -> (forall v, In v (concat h) -> (v <= m)%Z) ->
  heatmap_max h = Ok m.
Proof.
  unfold heatmap_max; destruct (concat h) as [|x tl]; [intros []|].
  intros Hin Hub; f_equal; apply Z.le_antisymm.
  - apply fold_left_Zmax_bound; [apply Hub; now left|].
    intros v Hv; apply Hub; now right.
  - destruct Hin as [Hin | Hin].
    + subst m; apply (proj1 (fold_left_Zmax_upper tl x)).
    + now apply (proj2 (fold_left_Zmax_upper tl x)).
Qed.

(** A buffer without negative elements and with a non-zero one is
    stretched to the full range. *)
Lemma final_rescale_ceiling (c : buffer) :
  nonneg c -> (exists v, In v (concat c) /\ v <> 0) ->
  exists out, final_rescale c = Ok out /\ heatmap_max out = Ok 255%Z.
Proof.
  intros Hnn (v0 & Hv0 & Hne).
  pose proof (proj1 (nonneg_concat c) Hnn) as Hpos.
  destruct (buffer_max_defined c) as [m Hm].
  { intros E; rewrite E in Hv0; exact Hv0. }
  destruct (buffer_max_spec c m Hm) as [Hin Hub].
  assert (Hm0 : 0 < m).
  { pose proof (Hpos v0 Hv0); pose proof (Hub v0 Hv0); lra. }
  unfold final_rescale; rewrite Hm; cbn [bind].
  destruct (Req_dec_T m 0) as [|_]; [lra|].
  eexists; split; [reflexivity|].
  unfold buffer_map; rewrite map_map.
  set (g := fun row => map _ (map _ row)).
  assert (Hg : concat (map g c)
               = map (fun v => astype_uint8 (np_clip 0 255 (v / m * 255)))
                   (concat c)).
  { rewrite concat_map; unfold g.
    f_equal; apply map_ext; intros row; now rewrite map_map. }
  apply heatmap_max_eq; rewrite Hg.
  - apply in_map_iff; exists m; split; [|assumption].
    replace (m / m * 255) with 255 by (field; lra).
    apply astype_uint8_clip_255.
  - intros z Hz; apply in_map_iff in Hz; destruct Hz as (v & <- & Hv).
    apply astype_uint8_clip_range.
    pose proof (Hpos v Hv); pose proof (Hub v Hv).
    assert (0 <= v / m <= 1).
    { split.
      - apply Rmult_le_pos; [assumption|].
        apply Rlt_le, Rinv_0_lt_compat; assumption.
      - apply Rmult_le_reg_r with m; [assumption|].
        field_simplify; lra. }
    lra.
Qed.

(** C1. Whenever the sum of the two normalised buffers, taken before the
    final rescale, has a non-zero element, [generate_thermal_heatmap]
    returns a heatmap whose maximum is exactly 255. *)
Theorem normalization_ceiling
    (gaussian_filter : buffer -> R -> buffer) (tp : Tape)
    (width height num_sources num_edges : Z) (edge_sigma source_sigma : R)
    (k : nat) (combined : buffer) :
  (forall b sigma, nonneg b -> nonneg (gaussian_filter b sigma)) ->
  tape_ok tp ->
  combined_heatmap gaussian_filter tp width height num_sources num_edges
    edge_sigma source_sigma k = Ok combined ->
  (exists v, In v (concat combined) /\ v <> 0) ->
  exists out,
    generate_thermal_heatmap gaussian_filter tp width height num_sources
      num_edges edge_sigma source_sigma k = Ok out /\
    heatmap_max out = Ok 255%Z.
Proof.
  intros Hgf Htp Hc Hnz.
  unfold generate_thermal_heatmap; rewrite Hc; cbn [bind].
  apply final_rescale_ceiling; [|assumption].
  eapply nonneg_combined_heatmap; eassumption.
Qed.

(** *** An edge on a canvas of one pixel *)

Lemma R_to_int_half : R_to_int (1 * (1 / 2)) = 0%Z.
Proof.
  unfold R_to_int; destruct (Rlt_dec (1 * (1 / 2)) 0); [lra|].
  symmetry; apply Int_part_spec; lra.
Qed.

Lemma plot_sample_lit (xi yi : R) :
  plot_sample (zeros 1 1) 128 [[128]] (xi, yi) = [[128]].
Proof.
  unfold plot_sample; destruct (_ && _)%bool; [|reflexivity].
  unfold assign_pixel; cbn [mapi_from].
  destruct (0 =? R_to_int (snd (xi, yi)))%Z; [|reflexivity].
  now destruct (0 =? R_to_int (fst (xi, yi)))%Z.
Qed.

Lemma plot_samples_lit (samples : list (R * R)) :
  fold_left (plot_sample (zeros 1 1) 128) samples [[128]] = [[128]].
Proof.
  induction samples as [|[xi yi] samples IH]; cbn [fold_left];
    [reflexivity|].
  now rewrite plot_sample_lit.
Qed.

Lemma plot_samples_unit_canvas (x y : list R) :
  x <> [] -> y <> [] ->
  R_to_int (hd 0 x) = 0%Z -> R_to_int (hd 0 y) = 0%Z ->
  fold_left (plot_sample (zeros 1 1) 128) (combine x y) [[0]] = [[128]].
Proof.
  destruct x as [|x0 x]; [congruence|]; destruct y as [|y0 y]; [congruence|].
  intros _ _ Hx Hy; cbn [hd] in Hx, Hy; cbn [combine fold_left].
  replace (plot_sample (zeros 1 1) 128 [[0]] (x0, y0)) with [[128]].
  - apply plot_samples_lit.
  - unfold plot_sample; cbn [fst snd]; rewrite Hx, Hy; reflexivity.
Qed.

Lemma one_edge_map :
  exists k',
    add_random_edges constant_tape (zeros 1 1) 1 128 3 0 = Ok ([[128]], k').
Proof.
  unfold add_random_edges.
  change (Z.to_nat 1) with 1%nat; cbn [for_range].
  unfold edge_iteration, edge_points.
  destruct (get_random_points_result constant_tape 3
              (IZR (shape0 (zeros 1 1))) 0) as [j Hj]; [lia|].
  rewrite Hj; cbn [bind].
  set (pts := map _ (tape_rand constant_tape (0 + j) (Z.to_nat 3))).
  assert (Hlen : length pts = 3%nat) by reflexivity.
  destruct (bezier_facts.get_bezier_curve_closed pts (2 / 10) 0)
    as (x & y & a' & q & g & Hrun & Hq & Hx & Hy & Hx0 & Hy0 & _);
    [discriminate|].
  rewrite Hrun; cbn [bind fst snd].
  assert (Hqin : In q pts).
  { apply bezier_facts.ccw_sort_In.
    destruct (ccw_sort pts); [discriminate|].
    injection Hq as <-; now left. }
  assert (Hqv : q = (1 * (1 / 2), 1 * (1 / 2))).
  { cbn in Hqin; unfold pscale in Hqin; cbn in Hqin.
    destruct Hqin as [<- | [<- | [<- | []]]]; reflexivity. }
  subst q; cbn [fst snd] in Hx0, Hy0.
  rewrite np_zeros_like_zeros.
  change (zeros 1 1) with [[0]] at 2.
  rewrite plot_samples_unit_canvas.
  - eexists; reflexivity.
  - apply bezier_facts.length_nonempty; rewrite Hx, Hlen; lia.
  - apply bezier_facts.length_nonempty; rewrite Hy, Hlen; lia.
  - rewrite Hx0; apply R_to_int_half.
  - rewrite Hy0; apply R_to_int_half.
Qed.

(** One edge, no source, on a canvas of one pixel. *)
Lemma one_edge_combined :
  combined_heatmap identity_filter constant_tape 1 1 0 1 5 50 0
  = Ok [[0 + 128 / 128]].
Proof.
  unfold combined_heatmap.
  rewrite np_zeros_nonneg by lia; cbn [bind].
  change (Z.to_nat 0) with 0%nat; change (Z.to_nat 1) with 1%nat.
  cbn [for_range bind].
  destruct one_edge_map as [k' Hk']; rewrite Hk'; cbn [bind fst].
  unfold identity_filter; rewrite normalize_zeros by lia; cbn [bind].
  unfold normalize; cbn [buffer_max concat app fold_left bind].
  destruct (Req_dec_T 128 0); [lra|]; reflexivity.
Qed.

Lemma identity_filter_nonneg (b : buffer) (sigma : R) :
  nonneg b -> nonneg (identity_filter b sigma).
Proof. intros H; exact H. Qed.

Lemma normalization_ceiling_witness :
  exists out,
    generate_thermal_heatmap identity_filter constant_tape 1 1 0 1 5 50 0
    = Ok out /\
    heatmap_max out = Ok 255%Z.
Proof.
  apply (normalization_ceiling identity_filter constant_tape 1 1 0 1 5 50 0
           [[0 + 128 / 128]]).
  - exact identity_filter_nonneg.
  - exact bezier_facts.constant_tape_ok.
  - exact one_edge_combined.
  - exists (0 + 128 / 128); split; [now left | lra].
Defined.

Lemma generate_heat_source_uses_shape_only_witness :
  (objects.deref
     (objects.accumulate_source identity_filter [[[1; 2]]] 0%nat 0 0 7 50)
     0%nat
   = buffer_add (objects.deref [[[1; 2]]] 0%nat)
       (identity_filter
          (heat_source_stamp (np_zeros_like (objects.deref [[[1; 2]]] 0%nat))
             0 0 7 5) 50) /\
   (forall l, (l < length [[[1; 2]]])%nat -> l <> 0%nat ->
      objects.deref
        (objects.accumulate_source identity_filter [[[1; 2]]] 0%nat 0 0 7 50)
        l
      = objects.deref [[[1; 2]]] l)) /\
  generate_heat_source identity_filter [[1; 2]] 0 0 7 1 3
  = generate_heat_source identity_filter [[5; 6]] 0 0 7 1 3 /\
  for_range 2 (source_iteration identity_filter constant_tape 21 21 50)
    (zeros 21 21, 0%nat)
  = Ok (fold_left buffer_add
          (map (nth_source identity_filter constant_tape 21 21 50
                  (zeros 21 21) 0) (seq 0 2))
          (zeros 21 21),
        (0 + 3 * 2)%nat).
Proof.
  split; [|split].
  - apply (proj1 (proj2
             (generate_heat_source_uses_shape_only identity_filter))).
    cbn; lia.
  - apply (proj1 (proj2 (proj2
             (generate_heat_source_uses_shape_only identity_filter)))).
    reflexivity.
  - apply (proj2 (proj2 (proj2
             (generate_heat_source_uses_shape_only identity_filter)))
             (fun _ _ => eq_refl) constant_tape 21%Z 21%Z 50 2%nat 21%nat
             21%nat 0%nat); lia.
Defined.

End thermal_facts.

(** ** More on the curves *)

Module bezier_more.

Import bezier.

(** *** Segments *)

(** A segment from a point to itself has radius 0, and its four control
    points all lie at that point, whatever the two angles and the radius
    factor. *)
Theorem degenerate_segment (q : R * R) (a1 a2 : R) (kw : kwargs) :
  r (Segment_init q q a1 a2 kw) = 0 /\
  p (Segment_init q q a1 a2 kw) = [q; q; q; q].
Proof.
  assert (Hd : sqrt ((fst q - fst q) ^ 2 + (snd q - snd q) ^ 2) = 0).
  { replace ((fst q - fst q) ^ 2 + (snd q - snd q) ^ 2) with 0 by ring.
    apply sqrt_0. }
  split.
  - cbn [Segment_init calc_intermediate_points r]; rewrite Hd; ring.
  - rewrite bezier_facts.Segment_init_p; cbv zeta; rewrite Hd.
    destruct q as [x y]; cbn [fst snd].
    repeat f_equal; ring.
Qed.

(** *** The segments of a curve *)

Lemma get_segments_nth (kw : kwargs) (points : list (R * R * R)) :
  forall (i : nat) (a b : R * R * R),
    nth_error points i = Some a -> nth_error points (S i) = Some b ->
    nth_error (get_segments points kw) i
    = Some (Segment_init (xy a) (xy b) (ang_of a) (ang_of b) kw).
Proof.
  induction points as [|x [|y tl] IH]; intros i a b Ha Hb.
  - destruct i; discriminate.
  - destruct i as [|[|i]]; discriminate.
  - destruct i as [|i].
    + cbn in Ha, Hb; injection Ha as <-; injection Hb as <-; reflexivity.
    + change (get_segments (x :: y :: tl) kw)
        with (Segment_init (xy x) (xy y) (ang_of x) (ang_of y) kw
              :: get_segments (y :: tl) kw).
      cbn [nth_error]; apply IH; assumption.
Qed.

Lemma get_segments_length (kw : kwargs) (points : list (R * R * R)) :
  length (get_segments points kw) = (length points - 1)%nat.
Proof.
  induction points as [|x [|y tl] IH]; try reflexivity.
  change (get_segments (x :: y :: tl) kw)
    with (Segment_init (xy x) (xy y) (ang_of x) (ang_of y) kw
          :: get_segments (y :: tl) kw).
  cbn [length] in *; rewrite IH; lia.
Qed.

Lemma concat_curves_length (kw : kwargs) (points : list (R * R * R)) :
  length (concat (map curve (get_segments points kw)))
  = (kw_get (kw_numpoints kw) 100 * (length points - 1))%nat.
Proof.
  induction points as [|x [|y tl] IH]; [cbn; lia | cbn; lia |].
  change (get_segments (x :: y :: tl) kw)
    with (Segment_init (xy x) (xy y) (ang_of x) (ang_of y) kw
          :: get_segments (y :: tl) kw).
  cbn [map concat]; rewrite length_app, IH.
  rewrite bezier_facts.segment_curve_length; cbn [length]; nia.
Qed.

(** [get_curve] needs two rows: with fewer it raises [ValueError] (there
    is nothing to concatenate).  With [n >= 2] rows it builds [n - 1]
    segments of [numpoints] samples each; segment [i] runs from row [i] to
    row [i + 1] with their angles, its first sample is row [i] and, with
    at least two samples, its last sample is row [i + 1]: each segment
    starts where the one before ends. *)
Theorem get_curve_segments (points : list (R * R * R)) (kw : kwargs)
    (d : R * R) :
  let numpoints := kw_get (kw_numpoints kw) 100%nat in
  ((length points < 2)%nat -> get_curve points kw = Raise ValueError) /\
  ((2 <= length points)%nat ->
   exists (segs : list Segment) (c : list (R * R)),
     get_curve points kw = Ok (segs, c) /\
     c = concat (map curve segs) /\
     length segs = (length points - 1)%nat /\
     length c = (numpoints * (length points - 1))%nat /\
     forall (i : nat) (a b : R * R * R),
       nth_error points i = Some a -> nth_error points (S i) = Some b ->
       exists s,
         nth_error segs i = Some s /\
         p1 s = xy a /\ p2 s = xy b /\
         angle1 s = ang_of a /\ angle2 s = ang_of b /\
         length (curve s) = numpoints /\
         ((1 <= numpoints)%nat -> hd d (curve s) = xy a) /\
         ((2 <= numpoints)%nat -> last (curve s) d = xy b)).
Proof.
  intros numpoints; split.
  - intros Hlen; destruct points as [|x [|y tl]]; cbn in Hlen; try lia;
      reflexivity.
  - intros Hlen; destruct points as [|x [|y tl]]; cbn in Hlen; try lia.
    rewrite bezier_facts.get_curve_two.
    eexists; eexists; split; [reflexivity|].
    split; [reflexivity|].
    split; [apply get_segments_length|].
    split; [apply concat_curves_length|].
    intros i a b Ha Hb; eexists; split.
    + apply get_segments_nth; eassumption.
    + repeat split.
      * apply bezier_facts.segment_curve_length.
      * apply bezier_facts.segment_curve_first.
      * apply bezier_facts.segment_curve_last.
Qed.

Lemma get_curve_segments_witness :
  get_curve [(0, 0, 0)] {| kw_numpoints := None; kw_r := None |}
  = Raise ValueError /\
  exists (segs : list Segment) (c : list (R * R)),
    get_curve [(0, 0, 0); (1, 0, 0); (1, 1, 0)]
      {| kw_numpoints := None; kw_r := None |} = Ok (segs, c) /\
    c = concat (map curve segs) /\
    length segs = 2%nat /\
    length c = 200%nat /\
    forall (i : nat) (a b : R * R * R),
      nth_error [(0, 0, 0); (1, 0, 0); (1, 1, 0)] i = Some a ->
      nth_error [(0, 0, 0); (1, 0, 0); (1, 1, 0)] (S i) = Some b ->
      exists s,
        nth_error segs i = Some s /\
        p1 s = xy a /\ p2 s = xy b /\
        angle1 s = ang_of a /\ angle2 s = ang_of b /\
        length (curve s) = 100%nat /\
        ((1 <= 100)%nat -> hd (0, 0) (curve s) = xy a) /\
        ((2 <= 100)%nat -> last (curve s) (0, 0) = xy b).
Proof.
  split.
  - apply (get_curve_segments [(0, 0, 0)]
             {| kw_numpoints := None; kw_r := None |} (0, 0)).
    cbn; lia.
  - apply (get_curve_segments [(0, 0, 0); (1, 0, 0); (1, 1, 0)]
             {| kw_numpoints := None; kw_r := None |} (0, 0)).
    cbn; lia.
Defined.

(** *** Sorting around the centre *)

Lemma insert_by_perm {A : Type} (key : A -> R) (x : A) (l : list A) :
  Permutation (insert_by key x l) (x :: l).
Proof.
  induction l as [|y l IH]; cbn; [reflexivity|].
  destruct (Rle_dec _ _); [reflexivity|].
  rewrite IH; apply perm_swap.
Qed.

Lemma sort_by_perm {A : Type} (key : A -> R) (l : list A) :
  Permutation (sort_by key l) l.
Proof.
  induction l as [|x l IH]; cbn; [reflexivity|].
  fold (sort_by key l); rewrite insert_by_perm; now constructor.
Qed.

Lemma insert_by_sorted {A : Type} (key : A -> R) (x : A) (l : list A) :
  StronglySorted (fun a b => key a <= key b) l ->
  StronglySorted (fun a b => key a <= key b) (insert_by key x l).
Proof.
  induction 1 as [|y l Hl IH Hy]; cbn.
  - repeat constructor.
  - destruct (Rle_dec (key x) (key y)) as [Hle | Hgt].
    + constructor; [now constructor|].
      constructor; [assumption|].
      eapply Forall_impl; [|exact Hy]; cbn; intros; lra.
    + constructor; [assumption|].
      apply Forall_forall; intros z Hz.
      apply bezier_facts.insert_by_In in Hz; destruct Hz as [<- | Hz].
      * lra.
      * rewrite Forall_forall in Hy; now apply Hy.
Qed.

Lemma sort_by_sorted {A : Type} (key : A -> R) (l : list A) :
  StronglySorted (fun a b => key a <= key b) (sort_by key l).
Proof.
  induction l as [|x l IH]; cbn; [constructor|].
  now apply insert_by_sorted.
Qed.

(** [ccw_sort] rearranges its points, losing and adding none, into
    ascending order of the angle [arctan2(dx, dy)] about their mean. *)
Theorem ccw_sort_sorted_permutation (pts : list (R * R)) :
  let m := mean_axis0 pts in
  let angle := fun q => arctan2 (fst q - fst m) (snd q - snd m) in
  Permutation (ccw_sort pts) pts /\
  StronglySorted (fun a b => angle a <= angle b) (ccw_sort pts).
Proof.
  intros m angle; split; [apply sort_by_perm|].
  exact (sort_by_sorted
           (fun q => arctan2 (fst (psub q m)) (snd (psub q m))) pts).
Qed.

(** *** The assembled curve, on every input *)

(** [get_bezier_curve] raises [IndexError] on an empty point set and on
    nothing else.  On [n >= 1] points, also on one or two, it returns
    [100 * n] samples in each coordinate, [n + 1] augmented rows, and a
    curve that ends where it starts. *)
Theorem get_bezier_curve_total (a : list (R * R)) (rad edgy : R) :
  (a = [] -> get_bezier_curve a rad edgy = Raise IndexError) /\
  (a <> [] ->
   exists (x y : list R) (a' : list (R * R * R)),
     get_bezier_curve a rad edgy = Ok (x, y, a') /\
     length x = (100 * length a)%nat /\
     length y = (100 * length a)%nat /\
     length a' = S (length a) /\
     hd 0 x = last x 0 /\ hd 0 y = last y 0).
Proof.
  split.
  - intros ->; reflexivity.
  - intros Ha.
    destruct (bezier_facts.get_bezier_curve_closed a rad edgy Ha)
      as (x & y & a' & q & g & Hrun & _ & Hx & Hy & Hx0 & Hy0 & Hx1 & Hy1
          & Ha' & _).
    exists x, y, a'; repeat split; try assumption; congruence.
Qed.

Lemma get_bezier_curve_total_witness :
  get_bezier_curve [] (2 / 10) 0 = Raise IndexError /\
  exists (x y : list R) (a' : list (R * R * R)),
    get_bezier_curve [(1, 2)] (2 / 10) 0 = Ok (x, y, a') /\
    length x = (100 * length [(1, 2)])%nat /\
    length y = (100 * length [(1, 2)])%nat /\
    length a' = S (length [(1, 2)]) /\
    hd 0 x = last x 0 /\ hd 0 y = last y 0.
Proof.
  split.
  - apply (get_bezier_curve_total [] (2 / 10) 0); reflexivity.
  - apply (get_bezier_curve_total [(1, 2)] (2 / 10) 0); discriminate.
Defined.

(** *** The sampler at the edges of its domain *)

(** [get_random_points] raises [ZeroDivisionError] when asked for zero
    points with no (or a zero) minimum distance, and [ValueError] when
    asked for a negative number of points. *)
Theorem get_random_points_errors (tp : Tape) (n : Z) (scale : R)
    (mindst : option R) (rec k : nat) :
  (n = 0%Z -> mindst = None \/ mindst = Some 0 ->
   get_random_points tp n scale mindst rec k = Raise ZeroDivisionError) /\
  ((n < 0)%Z ->
   get_random_points tp n scale mindst rec k = Raise ValueError).
Proof.
  split.
  - intros -> Hm; rewrite bezier_facts.get_random_points_unfold.
    destruct Hm as [-> | ->]; [reflexivity|].
    now rewrite bezier_facts.mindst_or_default_zero.
  - intros Hn; rewrite bezier_facts.get_random_points_unfold.
    destruct (bezier_facts.mindst_or_default_ok mindst n) as (m & -> & _);
      [lia|].
    cbn [bind]; unfold np_random_rand.
    destruct (Z.ltb_spec n 0); [reflexivity | lia].
Qed.

Lemma get_random_points_errors_witness :
  get_random_points constant_tape 0 1 None 0 0 = Raise ZeroDivisionError /\
  get_random_points constant_tape (-2) 1 None 0 0 = Raise ValueError.
Proof.
  split.
  - apply (get_random_points_errors constant_tape 0 1 None 0 0);
      [reflexivity | now left].
  - apply (get_random_points_errors constant_tape (-2) 1 None 0 0); lia.
Defined.

Lemma sorted_distances_nonneg (a : list (R * R)) (x : R) :
  In x (sorted_distances a) -> 0 <= x.
Proof.
  unfold sorted_distances; intros Hx; apply in_map_iff in Hx.
  destruct Hx as (v & <- & _); apply sqrt_pos.
Qed.

Lemma sorted_distances_short (a : list (R * R)) :
  (length a <= 1)%nat -> sorted_distances a = [].
Proof.
  intros Hl; unfold sorted_distances.
  assert (H : length (diff (ccw_sort a)) = 0%nat).
  { rewrite bezier_facts.diff_length, bezier_facts.ccw_sort_length; lia. }
  destruct (diff (ccw_sort a)); [reflexivity | discriminate].
Qed.

(** The first draw is returned, without any retry, when the minimum
    distance is negative, when the retry counter already stands at 200 or
    more, or when the draw has at most one point. *)
Theorem get_random_points_first_draw (tp : Tape) (n : Z) (scale : R)
    (mindst : option R) (m : R) (rec k : nat) :
  (0 <= n)%Z ->
  mindst_or_default mindst n = Ok m ->
  m < 0 \/ (200 <= rec)%nat
  \/ (length (tape_rand tp k (Z.to_nat n)) <= 1)%nat ->
  get_random_points tp n scale mindst rec k
  = Ok (map (pscale scale) (tape_rand tp k (Z.to_nat n)), S k).
Proof.
  intros Hn Hm Hcase; rewrite bezier_facts.get_random_points_unfold, Hm.
  cbn [bind]; unfold np_random_rand.
  destruct (Z.ltb_spec n 0); [lia|]; cbn [bind].
  destruct Hcase as [Hneg | [Hrec | Hlen]].
  - replace (all_ge _ m) with true; [reflexivity|].
    symmetry; apply bezier_facts.all_ge_true; intros x Hx.
    apply sorted_distances_nonneg in Hx; lra.
  - destruct (Nat.leb_spec 200 rec); [|lia].
    now rewrite orb_true_r.
  - now rewrite sorted_distances_short.
Qed.

Lemma get_random_points_first_draw_witness :
  get_random_points constant_tape 3 2 (Some (-1)) 0 7
  = Ok (map (pscale 2) (tape_rand constant_tape 7 (Z.to_nat 3)), 8%nat).
Proof.
  apply (get_random_points_first_draw constant_tape 3 2 (Some (-1)) (-1) 0 7).
  - lia.
  - apply bezier_facts.mindst_or_default_fixed; lra.
  - left; lra.
Defined.

(** The retry loop with the scale left open: which draw is accepted
    does not depend on it. *)
Lemma get_random_points_loop_any_scale (tp : Tape) (n : Z) (m : R) :
  (0 <= n)%Z -> m <> 0 ->
  forall (d rec k : nat), (200 - rec)%nat = d ->
  exists j : nat,
    (j <= d)%nat /\
    forall scale,
      get_random_points tp n scale (Some m) rec k
      = Ok (map (pscale scale) (tape_rand tp (k + j) (Z.to_nat n)), S (k + j)).
Proof.
  intros Hn Hm d; induction d as [|d IH]; intros rec k Hd.
  - exists 0%nat; split; [lia|]; intros scale.
    rewrite bezier_facts.get_random_points_unfold,
      bezier_facts.mindst_or_default_fixed by assumption.
    unfold np_random_rand; destruct (Z.ltb_spec n 0); [lia|]; cbn [bind].
    destruct (Nat.leb_spec 200 rec); [|lia].
    now rewrite orb_true_r, Nat.add_0_r.
  - destruct (all_ge (sorted_distances (tape_rand tp k (Z.to_nat n))) m
              || (200 <=? rec)%nat) eqn:Et.
    + exists 0%nat; split; [lia|]; intros scale.
      rewrite bezier_facts.get_random_points_unfold,
        bezier_facts.mindst_or_default_fixed by assumption.
      unfold np_random_rand; destruct (Z.ltb_spec n 0); [lia|]; cbn [bind].
      now rewrite Et, Nat.add_0_r.
    + destruct (IH (S rec) (S k)) as (j & Hj & Hrun).
      { apply orb_false_elim in Et; destruct Et as [_ Et].
        apply Nat.leb_gt in Et; lia. }
      exists (S j); split; [lia|]; intros scale.
      rewrite bezier_facts.get_random_points_unfold,
        bezier_facts.mindst_or_default_fixed by assumption.
      unfold np_random_rand; destruct (Z.ltb_spec n 0); [lia|]; cbn [bind].
      rewrite Et, Hrun.
      now replace (k + S j)%nat with (S k + j)%nat by lia.
Qed.

(** The scale plays no part in the choice of the points: one and the same
    draw is returned for every scale, multiplied by it, and the generator
    is left at the same position. *)
Theorem get_random_points_scale_applied_last (tp : Tape) (n : Z)
    (mindst : option R) (rec k : nat) :
  (1 <= n)%Z ->
  exists (a : list (R * R)) (k' : nat),
    forall scale,
      get_random_points tp n scale mindst rec k
      = Ok (map (pscale scale) a, k').
Proof.
  intros Hn.
  destruct (bezier_facts.mindst_or_default_ok mindst n) as (m & Hm & Hm0);
    [lia|].
  destruct (get_random_points_loop_any_scale tp n m ltac:(lia) Hm0
              (200 - rec)%nat rec k eq_refl) as (j & _ & Hrun).
  exists (tape_rand tp (k + j) (Z.to_nat n)), (S (k + j)); intros scale.
  rewrite (bezier_facts.get_random_points_resolved tp n scale mindst m)
    by assumption.
  apply Hrun.
Qed.

Lemma get_random_points_scale_applied_last_witness :
  exists (a : list (R * R)) (k' : nat),
    forall scale,
      get_random_points constant_tape 3 scale None 0 0
      = Ok (map (pscale scale) a, k').
Proof.
  apply (get_random_points_scale_applied_last constant_tape 3 None 0 0); lia.
Defined.

End bezier_more.

(** ** More on the pipeline *)

Module thermal_more.

Import bezier thermal_heatmap_generator.

(** *** The edge rasteriser *)

Lemma assign_pixel_rows (b : buffer) (yi xi : Z) (v : R) :
  map (@length R) (assign_pixel b yi xi v) = map (@length R) b.
Proof.
  apply thermal_facts.mapi_from_rows; intros j row.
  destruct (j =? yi)%Z; [apply thermal_facts.mapi_from_length | reflexivity].
Qed.

Lemma plot_samples_rows (heatmap : buffer) (edge_intensity : Z)
    (samples : list (R * R)) (edges_map : buffer) :
  map (@length R)
    (fold_left (plot_sample heatmap edge_intensity) samples edges_map)
  = map (@length R) edges_map.
Proof.
  revert edges_map; induction samples as [|q samples IH]; intros edges_map;
    cbn [fold_left]; [reflexivity|].
  rewrite IH; unfold plot_sample.
  destruct (_ && _)%bool; [apply assign_pixel_rows | reflexivity].
Qed.

(** Elements that are 0 or the edge intensity. *)
Lemma two_valued_assign_pixel (c : R) (b : buffer) (yi xi : Z) :
  Forall (Forall (fun v => v = 0 \/ v = c)) b ->
  Forall (Forall (fun v => v = 0 \/ v = c)) (assign_pixel b yi xi c).
Proof.
  unfold assign_pixel; apply thermal_facts.mapi_from_Forall.
  intros i row Hrow; destruct (i =? yi)%Z; [|assumption].
  revert Hrow; apply thermal_facts.mapi_from_Forall.
  intros j old Hold; destruct (j =? xi)%Z; [now right | assumption].
Qed.

Lemma two_valued_plot_samples (heatmap : buffer) (edge_intensity : Z)
    (samples : list (R * R)) (edges_map : buffer) :
  Forall (Forall (fun v => v = 0 \/ v = IZR edge_intensity)) edges_map ->
  Forall (Forall (fun v => v = 0 \/ v = IZR edge_intensity))
    (fold_left (plot_sample heatmap edge_intensity) samples edges_map).
Proof.
  revert edges_map; induction samples as [|q samples IH]; intros edges_map H;
    cbn [fold_left]; [assumption|].
  apply IH; unfold plot_sample.
  destruct (_ && _)%bool; [now apply two_valued_assign_pixel | assumption].
Qed.

Lemma two_valued_zeros_like (c : R) (b : buffer) :
  Forall (Forall (fun v => v = 0 \/ v = c)) (np_zeros_like b).
Proof.
  unfold np_zeros_like; apply Forall_forall; intros row Hrow.
  apply in_map_iff in Hrow; destruct Hrow as (row0 & <- & _).
  apply Forall_forall; intros v Hv.
  apply in_map_iff in Hv; destruct Hv as (_ & <- & _); now left.
Qed.

(** One iteration of the edge loop, for a request of at least one
    point. *)
Lemma edge_iteration_ok (tp : Tape) (heatmap : buffer)
    (edge_intensity num_points : Z) (edges_map : buffer) (k : nat) :
  tape_ok tp -> (1 <= num_points)%Z ->
  exists (samples : list (R * R)) (j : nat),
    (j <= 200)%nat /\
    edge_iteration tp heatmap edge_intensity num_points (edges_map, k)
    = Ok (fold_left (plot_sample heatmap edge_intensity) samples edges_map,
          S (k + j)).
Proof.
  intros Htp Hn; unfold edge_iteration, edge_points.
  destruct (bezier_facts.mindst_or_default_ok None num_points)
    as (m & Hm & Hm0); [lia|].
  destruct (bezier_facts.get_random_points_loop tp num_points
              (IZR (shape0 heatmap)) m ltac:(lia) Hm0
              (200 - 0)%nat 0%nat k eq_refl) as (j & Hj & Hrun & _).
  rewrite (bezier_facts.get_random_points_resolved tp num_points _ None m)
    by assumption.
  rewrite Hrun; cbn [bind].
  set (pts := map _ (tape_rand tp (k + j) (Z.to_nat num_points))).
  assert (Hpts : pts <> []).
  { apply bezier_facts.length_nonempty; unfold pts.
    rewrite length_map, (rand_length tp Htp); lia. }
  destruct (bezier_facts.get_bezier_curve_closed pts (2 / 10) 0 Hpts)
    as (x & y & a' & q & g & Hcurve & _).
  rewrite Hcurve; cbn [bind fst snd].
  exists (combine x y), j; split; [lia | reflexivity].
Qed.

Lemma add_random_edges_ok (tp : Tape) (heatmap : buffer)
    (num_edges edge_intensity num_points : Z) (k : nat) :
  tape_ok tp -> (1 <= num_points)%Z ->
  exists (edges_map : buffer) (k' : nat),
    add_random_edges tp heatmap num_edges edge_intensity num_points k
    = Ok (edges_map, k') /\
    map (@length R) edges_map = map (@length R) heatmap /\
    Forall (Forall (fun v => v = 0 \/ v = IZR edge_intensity)) edges_map /\
    (k + Z.to_nat num_edges <= k' <= k + 201 * Z.to_nat num_edges)%nat.
Proof.
  intros Htp Hn; unfold add_random_edges.
  assert (Hloop : forall (count : nat) (edges_map : buffer) (k0 : nat),
    map (@length R) edges_map = map (@length R) heatmap ->
    Forall (Forall (fun v => v = 0 \/ v = IZR edge_intensity)) edges_map ->
    exists (edges_map' : buffer) (k' : nat),
      for_range count (edge_iteration tp heatmap edge_intensity num_points)
        (edges_map, k0) = Ok (edges_map', k') /\
      map (@length R) edges_map' = map (@length R) heatmap /\
      Forall (Forall (fun v => v = 0 \/ v = IZR edge_intensity)) edges_map' /\
      (k0 + count <= k' <= k0 + 201 * count)%nat).
  { induction count as [|count IH]; intros edges_map k0 Hshape Hval.
    - exists edges_map, k0; cbn [for_range]; repeat split; auto; lia.
    - cbn [for_range].
      destruct (edge_iteration_ok tp heatmap edge_intensity num_points
                  edges_map k0 Htp Hn) as (samples & j & Hj & Hit).
      rewrite Hit; cbn [bind].
      destruct (IH (fold_left (plot_sample heatmap edge_intensity) samples
                      edges_map) (S (k0 + j)))
        as (e' & k' & Hrun & Hs' & Hv' & Hk').
      + now rewrite plot_samples_rows.
      + now apply two_valued_plot_samples.
      + exists e', k'; repeat split; auto; lia. }
  apply Hloop.
  - apply thermal_facts.np_zeros_like_rows.
  - apply two_valued_zeros_like.
Qed.

(** With at least one point per curve and an edge intensity that a
    float64 holds exactly (at most 2^53 in absolute value),
    [add_random_edges] raises nothing.  The buffer it returns has the shape
    of the canvas and holds nothing but 0 and [edge_intensity]: edges are
    written, never summed.  Every iteration uses between 1 and 201 draws of
    the generator. *)
Theorem add_random_edges_result (tp : Tape) (heatmap : buffer)
    (num_edges edge_intensity num_points : Z) (k : nat) :
  tape_ok tp -> (1 <= num_points)%Z ->
  (Z.abs edge_intensity <= 2 ^ 53)%Z ->
  exists (edges_map : buffer) (k' : nat),
    add_random_edges tp heatmap num_edges edge_intensity num_points k
    = Ok (edges_map, k') /\
    map (@length R) edges_map = map (@length R) heatmap /\
    Forall (Forall (fun v => v = 0 \/ v = IZR edge_intensity)) edges_map /\
    (k + Z.to_nat num_edges <= k' <= k + 201 * Z.to_nat num_edges)%nat.
Proof. intros Htp Hn _; now apply add_random_edges_ok. Qed.

Lemma add_random_edges_result_witness :
  exists (edges_map : buffer) (k' : nat),
    add_random_edges constant_tape (zeros 2 3) 2 128 3 0
    = Ok (edges_map, k') /\
    map (@length R) edges_map = map (@length R) (zeros 2 3) /\
    Forall (Forall (fun v => v = 0 \/ v = IZR 128)) edges_map /\
    (0 + Z.to_nat 2 <= k' <= 0 + 201 * Z.to_nat 2)%nat.
Proof.
  apply (add_random_edges_result constant_tape (zeros 2 3) 2 128 3 0).
  - exact bezier_facts.constant_tape_ok.
  - lia.
  - cbn; lia.
Defined.

Lemma for_range_first_raises {S : Type} (body : S -> result S) (st : S)
    (e : exn) (count : nat) :
  (1 <= count)%nat -> body st = Raise e -> for_range count body st = Raise e.
Proof.
  destruct count as [|count]; [lia|]; intros _ Hb.
  cbn [for_range]; now rewrite Hb.
Qed.

(** Asked for curves through no points, [add_random_edges] raises
    [ZeroDivisionError] in its first iteration; through a negative number
    of points, [ValueError]. *)
Theorem add_random_edges_errors (tp : Tape) (heatmap : buffer)
    (num_edges edge_intensity num_points : Z) (k : nat) :
  (1 <= num_edges)%Z ->
  (num_points = 0%Z ->
   add_random_edges tp heatmap num_edges edge_intensity num_points k
   = Raise ZeroDivisionError) /\
  ((num_points < 0)%Z ->
   add_random_edges tp heatmap num_edges edge_intensity num_points k
   = Raise ValueError).
Proof.
  intros He; split; intros Hn; unfold add_random_edges;
    (apply for_range_first_raises; [lia|]);
    unfold edge_iteration, edge_points;
    rewrite bezier_facts.get_random_points_unfold.
  - subst num_points; reflexivity.
  - destruct (bezier_facts.mindst_or_default_ok None num_points)
      as (m & -> & _); [lia|].
    cbn [bind]; unfold np_random_rand.
    destruct (Z.ltb_spec num_points 0); [reflexivity | lia].
Qed.

Lemma add_random_edges_errors_witness :
  add_random_edges constant_tape (zeros 2 3) 1 128 0 0
  = Raise ZeroDivisionError /\
  add_random_edges constant_tape (zeros 2 3) 1 128 (-1) 0 = Raise ValueError.
Proof.
  split.
  - apply (add_random_edges_errors constant_tape (zeros 2 3) 1 128 0 0);
      [lia | reflexivity].
  - apply (add_random_edges_errors constant_tape (zeros 2 3) 1 128 (-1) 0);
      lia.
Defined.

Lemma for_range_ext {S : Type} (f g : S -> result S) :
  (forall st, f st = g st) ->
  forall (count : nat) (st : S), for_range count f st = for_range count g st.
Proof.
  intros Hfg count; induction count as [|count IH]; intros st;
    cbn [for_range]; [reflexivity|].
  rewrite Hfg; destruct (g st); cbn [bind]; [apply IH | reflexivity].
Qed.

Lemma same_shape_shape0 (a b : buffer) :
  map (@length R) a = map (@length R) b -> shape0 a = shape0 b.
Proof.
  intros H; unfold shape0; f_equal.
  apply (f_equal (@length nat)) in H; now rewrite !length_map in H.
Qed.

Lemma same_shape_shape1 (a b : buffer) :
  map (@length R) a = map (@length R) b -> shape1 a = shape1 b.
Proof.
  destruct a as [|ra a], b as [|rb b]; cbn; intros H; try discriminate;
    [reflexivity|].
  injection H as -> _; reflexivity.
Qed.

(** [add_random_edges] uses its canvas for its shape only: two canvases
    of one shape give the same edges and leave the generator at the same
    position. *)
Theorem add_random_edges_uses_shape_only (tp : Tape) (h1 h2 : buffer)
    (num_edges edge_intensity num_points : Z) (k : nat) :
  map (@length R) h1 = map (@length R) h2 ->
  add_random_edges tp h1 num_edges edge_intensity num_points k
  = add_random_edges tp h2 num_edges edge_intensity num_points k.
Proof.
  intros Hshape; unfold add_random_edges.
  rewrite (thermal_facts.np_zeros_like_same_shape h1 h2 Hshape).
  apply for_range_ext; intros [edges_map k0].
  unfold edge_iteration, edge_points, plot_sample.
  now rewrite (same_shape_shape0 h1 h2 Hshape), (same_shape_shape1 h1 h2 Hshape).
Qed.

Lemma add_random_edges_uses_shape_only_witness :
  add_random_edges constant_tape [[1; 2]; [3; 4]] 2 128 3 0
  = add_random_edges constant_tape [[5; 6]; [7; 8]] 2 128 3 0.
Proof.
  apply (add_random_edges_uses_shape_only constant_tape
           [[1; 2]; [3; 4]] [[5; 6]; [7; 8]] 2 128 3 0).
  reflexivity.
Defined.

(** *** Which pixels an edge sets *)




(** *** Normalising a buffer *)

Lemma buffer_max_eq (b : buffer) (m : R) :
  In m (concat b) -> (forall v, In v (concat b) -> v <= m) ->
  buffer_max b = Ok m.
Proof.
  intros Hin Hub.
  destruct (thermal_facts.buffer_max_defined b) as [m' Hm'].
  { intros E; rewrite E in Hin; exact Hin. }
  rewrite Hm'; f_equal.
  destruct (thermal_facts.buffer_max_spec b m' Hm') as [Hin' Hub'].
  pose proof (Hub m' Hin'); pose proof (Hub' m Hin); lra.
Qed.

Lemma buffer_map_rows (f : R -> R) (b : buffer) :
  map (@length R) (buffer_map f b) = map (@length R) b.
Proof.
  unfold buffer_map; rewrite map_map.
  apply map_ext; intros row; apply length_map.
Qed.

Lemma concat_buffer_map (f : R -> R) (b : buffer) :
  concat (buffer_map f b) = map f (concat b).
Proof. unfold buffer_map; now rewrite concat_map. Qed.

(** The normalisation step [if b.max() != 0: b = b / b.max()].  On an
    array without elements it raises [ValueError].  On a buffer without
    negative elements it keeps the shape; when all elements are 0 the
    buffer is returned as it is, and otherwise every element of the result
    lies in [[0, 1]] and the maximum of the result is exactly 1. *)
Theorem normalize_unit_range (b : buffer) :
  (concat b = [] -> normalize b = Raise ValueError) /\
  (nonneg b -> concat b <> [] ->
   exists b',
     normalize b = Ok b' /\
     map (@length R) b' = map (@length R) b /\
     ((forall v, In v (concat b) -> v = 0) -> b' = b) /\
     ((exists v, In v (concat b) /\ v <> 0) ->
      (forall v, In v (concat b') -> 0 <= v <= 1) /\
      buffer_max b' = Ok 1)).
Proof.
  split.
  - intros He; unfold normalize.
    now rewrite (thermal_facts.buffer_max_empty b He).
  - intros Hnn Hne.
    pose proof (proj1 (thermal_facts.nonneg_concat b) Hnn) as Hpos.
    destruct (thermal_facts.buffer_max_defined b Hne) as [m Hm].
    destruct (thermal_facts.buffer_max_spec b m Hm) as [Hin Hub].
    unfold normalize; rewrite Hm; cbn [bind].
    destruct (Req_dec_T m 0) as [Hm0 | Hm0].
    + exists b.
      split; [reflexivity|]; split; [reflexivity|]; split; [auto|].
      intros (v & Hv & Hv0); exfalso.
      pose proof (Hpos v Hv); pose proof (Hub v Hv); lra.
    + assert (Hmpos : 0 < m) by (pose proof (Hpos m Hin); lra).
      assert (Hrange : forall v, In v (concat (buffer_map (fun v => v / m) b))
                         -> 0 <= v <= 1).
      { intros v Hv; rewrite concat_buffer_map in Hv.
        apply in_map_iff in Hv; destruct Hv as (u & <- & Hu).
        pose proof (Hpos u Hu); pose proof (Hub u Hu); split.
        - apply Rmult_le_pos; [assumption|].
          apply Rlt_le, Rinv_0_lt_compat; assumption.
        - apply Rmult_le_reg_r with m; [assumption|].
          field_simplify; lra. }
      eexists; split; [reflexivity|].
      split; [apply buffer_map_rows|].
      split.
      * intros Hz; elim Hm0; now apply Hz.
      * intros _; split; [exact Hrange|].
        apply buffer_max_eq.
        -- rewrite concat_buffer_map; apply in_map_iff.
           exists m; split; [field; lra | assumption].
        -- intros v Hv; now apply Hrange.
Qed.

Lemma normalize_unit_range_witness :
  normalize [[]] = Raise ValueError /\
  exists b',
    normalize [[0; 4]; [2; 1]] = Ok b' /\
    map (@length R) b' = map (@length R) [[0; 4]; [2; 1]] /\
    ((forall v, In v (concat [[0; 4]; [2; 1]]) -> v = 0) ->
     b' = [[0; 4]; [2; 1]]) /\
    ((exists v, In v (concat [[0; 4]; [2; 1]]) /\ v <> 0) ->
     (forall v, In v (concat b') -> 0 <= v <= 1) /\
     buffer_max b' = Ok 1).
Proof.
  split.
  - apply (normalize_unit_range [[]]); reflexivity.
  - apply (normalize_unit_range [[0; 4]; [2; 1]]).
    + repeat constructor; lra.
    + discriminate.
Defined.

(** *** The whole call *)

Lemma rows_of_shape (A : Type) (b : list (list A)) (h w : nat) :
  map (@length A) b = repeat w h ->
  length b = h /\ Forall (fun row => length row = w) b.
Proof.
  intros H; split.
  - apply (f_equal (@length nat)) in H.
    now rewrite length_map, repeat_length in H.
  - apply Forall_forall; intros row Hrow.
    apply (repeat_spec h w); rewrite <- H; now apply in_map.
Qed.

Lemma zeros_rows (h w : nat) : map (@length R) (zeros h w) = repeat w h.
Proof. unfold zeros; now rewrite map_repeat, repeat_length. Qed.

Lemma shape_nonempty (b : buffer) (h w : nat) :
  map (@length R) b = repeat w h -> (0 < h)%nat -> (0 < w)%nat ->
  concat b <> [].
Proof.
  destruct h as [|h]; [lia|]; destruct b as [|row b]; [discriminate|].
  cbn; intros H _ Hw; injection H as Hrow _.
  destruct row; [cbn in Hrow; lia | discriminate].
Qed.

Lemma normalize_ok (b : buffer) :
  concat b <> [] ->
  exists b', normalize b = Ok b' /\ map (@length R) b' = map (@length R) b.
Proof.
  intros Hne; destruct (thermal_facts.buffer_max_defined b Hne) as [m Hm].
  unfold normalize; rewrite Hm; cbn [bind].
  eexists; split; [reflexivity|].
  destruct (Req_dec_T m 0); [reflexivity | apply buffer_map_rows].
Qed.

Lemma astype_uint8_range (v : R) : (0 <= astype_uint8 v <= 255)%Z.
Proof.
  unfold astype_uint8.
  pose proof (Z.mod_pos_bound (R_to_int v) 256 ltac:(lia)); lia.
Qed.

Lemma final_rescale_ok (c : buffer) :
  concat c <> [] ->
  exists out,
    final_rescale c = Ok out /\
    map (@length Z) out = map (@length R) c /\
    Forall (Forall (fun v => (0 <= v <= 255)%Z)) out.
Proof.
  intros Hne; destruct (thermal_facts.buffer_max_defined c Hne) as [m Hm].
  unfold final_rescale; rewrite Hm; cbn [bind].
  eexists; split; [reflexivity|]; split.
  - rewrite map_map.
    destruct (Req_dec_T m 0);
      [|unfold buffer_map; rewrite map_map];
      apply map_ext; intros row; now rewrite ?length_map.
  - apply Forall_forall; intros row Hrow.
    apply in_map_iff in Hrow; destruct Hrow as (row0 & <- & _).
    apply Forall_forall; intros v Hv.
    apply in_map_iff in Hv; destruct Hv as (u & <- & _).
    apply astype_uint8_range.
Qed.

Section Whole.

Variable gaussian_filter : buffer -> R -> buffer.

Hypothesis gaussian_filter_shape :
  forall b sigma,
    map (@length R) (gaussian_filter b sigma) = map (@length R) b.

Variable tp : Tape.
Hypothesis tp_ok : tape_ok tp.

Lemma source_iteration_shape (width height : Z) (source_sigma : R)
    (shape : list nat) (st st' : buffer * nat) :
  map (@length R) (fst st) = shape ->
  source_iteration gaussian_filter tp width height source_sigma st = Ok st' ->
  map (@length R) (fst st') = shape.
Proof.
  destruct st as [heatmap k]; cbn [fst]; intros Hs.
  unfold source_iteration, generate_heat_source.
  destruct (np_random_randint tp k 10 (width - 10)); [|discriminate].
  destruct (np_random_randint tp (k + 1) 10 (height - 10)); [|discriminate].
  cbn [bind]; intros [= <-]; cbn [fst].
  rewrite thermal_facts.buffer_add_rows; [assumption|].
  now rewrite gaussian_filter_shape, thermal_facts.heat_source_stamp_rows.
Qed.

Lemma source_loop_ok (width height num_sources : Z) (source_sigma : R)
    (h w k : nat) :
  (num_sources <= 0 \/ 20 < width /\ 20 < height)%Z ->
  exists (heatmap : buffer) (k' : nat),
    for_range (Z.to_nat num_sources)
      (source_iteration gaussian_filter tp width height source_sigma)
      (zeros h w, k) = Ok (heatmap, k') /\
    map (@length R) heatmap = repeat w h.
Proof.
  intros Hcase.
  assert (Hrun : exists st,
            for_range (Z.to_nat num_sources)
              (source_iteration gaussian_filter tp width height source_sigma)
              (zeros h w, k) = Ok st).
  { destruct Hcase as [Hs | [Hw Hh]].
    - replace (Z.to_nat num_sources) with 0%nat by lia; cbn; eauto.
    - rewrite (thermal_facts.source_loop_sum gaussian_filter
                 gaussian_filter_shape tp width height source_sigma
                 (zeros h w)) by auto.
      eauto. }
  destruct Hrun as [[heatmap k'] Hrun]; exists heatmap, k'; split;
    [assumption|].
  apply (thermal_facts.for_range_invariant
           (fun st => map (@length R) (fst st) = repeat w h)
           (source_iteration gaussian_filter tp width height source_sigma)
           (fun st st' => source_iteration_shape width height source_sigma
                            (repeat w h) st st')
           (Z.to_nat num_sources) (zeros h w, k) (heatmap, k')
           (zeros_rows h w) Hrun).
Qed.

Lemma generate_ok (width height num_sources num_edges : Z)
    (edge_sigma source_sigma : R) (k : nat) :
  (0 < width)%Z -> (0 < height)%Z ->
  (num_sources <= 0 \/ 20 < width /\ 20 < height)%Z ->
  exists out,
    generate_thermal_heatmap gaussian_filter tp width height num_sources
      num_edges edge_sigma source_sigma k = Ok out /\
    length out = Z.to_nat height /\
    Forall (fun row => length row = Z.to_nat width) out /\
    Forall (Forall (fun v => (0 <= v <= 255)%Z)) out.
Proof.
  intros Hw Hh Hcase.
  unfold generate_thermal_heatmap, combined_heatmap.
  rewrite thermal_facts.np_zeros_nonneg by lia; cbn [bind].
  set (H := Z.to_nat height); set (W := Z.to_nat width).
  destruct (source_loop_ok width height num_sources source_sigma H W k Hcase)
    as (heatmap & k' & -> & Hshape).
  cbn [bind].
  destruct (add_random_edges_ok tp heatmap num_edges 128 3 k' tp_ok
              ltac:(lia)) as (edges & k'' & -> & Heshape & _).
  cbn [bind fst].
  assert (Hgshape : map (@length R) (gaussian_filter edges edge_sigma)
                    = repeat W H).
  { now rewrite gaussian_filter_shape, Heshape. }
  destruct (normalize_ok heatmap) as (hn & -> & Hhn).
  { apply (shape_nonempty _ H W); [assumption | lia | lia]. }
  destruct (normalize_ok (gaussian_filter edges edge_sigma))
    as (en & -> & Hen).
  { apply (shape_nonempty _ H W); [assumption | lia | lia]. }
  cbn [bind].
  assert (Hc : map (@length R) (buffer_add hn en) = repeat W H).
  { rewrite thermal_facts.buffer_add_rows; congruence. }
  destruct (final_rescale_ok (buffer_add hn en)) as (out & -> & Hout & Hrange).
  { apply (shape_nonempty _ H W); [assumption | lia | lia]. }
  exists out; split; [reflexivity|].
  rewrite Hc in Hout; destruct (rows_of_shape Z out H W Hout).
  repeat split; assumption.
Qed.

End Whole.

(** For positive dimensions, and dimensions above 20 when there are
    sources to place, [generate_thermal_heatmap] raises nothing; the array
    it returns has [height] rows of [width] elements, each an integer from
    0 to 255.  The filter is only asked to return arrays of the shape of
    its input. *)
Theorem generate_shape_and_range
    (gaussian_filter : buffer -> R -> buffer) (tp : Tape)
    (width height num_sources num_edges : Z) (edge_sigma source_sigma : R)
    (k : nat) :
  (forall b sigma,
     map (@length R) (gaussian_filter b sigma) = map (@length R) b) ->
  tape_ok tp ->
  (0 < width)%Z -> (0 < height)%Z ->
  (num_sources <= 0 \/ 20 < width /\ 20 < height)%Z ->
  exists out,
    generate_thermal_heatmap gaussian_filter tp width height num_sources
      num_edges edge_sigma source_sigma k = Ok out /\
    length out = Z.to_nat height /\
    Forall (fun row => length row = Z.to_nat width) out /\
    Forall (Forall (fun v => (0 <= v <= 255)%Z)) out.
Proof. intros; now apply generate_ok. Qed.

Lemma generate_shape_and_range_witness :
  exists out,
    generate_thermal_heatmap identity_filter constant_tape 25 21 2 1 5 50 0
    = Ok out /\
    length out = Z.to_nat 21 /\
    Forall (fun row => length row = Z.to_nat 25) out /\
    Forall (Forall (fun v => (0 <= v <= 255)%Z)) out.
Proof.
  apply (generate_shape_and_range identity_filter constant_tape
           25 21 2 1 5 50 0).
  - reflexivity.
  - exact bezier_facts.constant_tape_ok.
  - lia.
  - lia.
  - lia.
Defined.

(** With at least one source to place, a canvas 20 wide or less, or 20
    high or less, makes the call raise [ValueError]: the range
    [randint(10, size - 10)] draws from is empty (and a negative size is
    refused when the canvas is allocated). *)
Theorem small_canvas_with_sources_raises
    (gaussian_filter : buffer -> R -> buffer) (tp : Tape)
    (width height num_sources num_edges : Z) (edge_sigma source_sigma : R)
    (k : nat) :
  (1 <= num_sources)%Z -> (width <= 20 \/ height <= 20)%Z ->
  generate_thermal_heatmap gaussian_filter tp width height num_sources
    num_edges edge_sigma source_sigma k = Raise ValueError.
Proof.
  intros Hs Hd; unfold generate_thermal_heatmap, combined_heatmap, np_zeros.
  destruct ((height <? 0) || (width <? 0))%Z; [reflexivity|].
  cbn [bind].
  rewrite (for_range_first_raises _ _ ValueError); [reflexivity | lia |].
  unfold source_iteration, np_random_randint.
  destruct (Z.ltb_spec 10 (width - 10)); [|reflexivity].
  destruct (Z.ltb_spec 10 (height - 10)); [lia | reflexivity].
Qed.

Lemma small_canvas_with_sources_raises_witness :
  generate_thermal_heatmap identity_filter constant_tape 20 256 1 0 5 50 0
  = Raise ValueError.
Proof.
  apply (small_canvas_with_sources_raises identity_filter constant_tape
           20 256 1 0 5 50 0); lia.
Defined.

(** *** Where the compositor places its sources *)

Lemma pixel_heat_source_stamp (heatmap : buffer) (x y : Z) (intensity : R)
    (size : Z) (r c : nat) (row : list R) (old : R) :
  nth_error heatmap r = Some row -> nth_error row c = Some old ->
  pixel (heat_source_stamp heatmap x y intensity size) r c
  = Some (if in_slice (y - size / 2) (y + size / 2 + 1)
               (shape0 heatmap) (Z.of_nat r)
             && in_slice (x - size / 2) (x + size / 2 + 1)
                  (Z.of_nat (length row)) (Z.of_nat c)
          then intensity else 0).
Proof.
  intros Hrow Hold; unfold heat_source_stamp.
  assert (Hrow0 : nth_error (np_zeros_like heatmap) r
                  = Some (map (fun _ => 0) row)).
  { unfold np_zeros_like; now rewrite nth_error_map, Hrow. }
  assert (Hold0 : nth_error (map (fun _ : R => 0) row) c = Some 0).
  { now rewrite nth_error_map, Hold. }
  rewrite (thermal_facts.pixel_assign_slice2 _ _ _ _ _ _ r c _ 0 Hrow0 Hold0).
  rewrite length_map.
  unfold shape0, np_zeros_like; rewrite length_map; reflexivity.
Qed.

(** On a canvas more than 20 wide and high, the centre the source loop
    draws keeps the 5 x 5 stamp inside the canvas, so nothing is clipped:
    the stamped buffer holds the intensity exactly at the positions within
    2 rows and 2 columns of the centre. *)
Theorem source_stamp_inside_canvas (tp : Tape) (width height : Z)
    (canvas : buffer) (intensity : R) (k : nat) :
  tape_ok tp -> (20 < width)%Z -> (20 < height)%Z ->
  map (@length R) canvas = repeat (Z.to_nat width) (Z.to_nat height) ->
  let x := tape_randint tp k 10 (width - 10) in
  let y := tape_randint tp (k + 1) 10 (height - 10) in
  np_random_randint tp k 10 (width - 10) = Ok x /\
  np_random_randint tp (k + 1) 10 (height - 10) = Ok y /\
  region_in_bounds canvas x y 5 = true /\
  forall (r c : nat) (old : R),
    pixel canvas r c = Some old ->
    pixel (heat_source_stamp canvas x y intensity 5) r c
    = Some (if ((Z.abs (Z.of_nat r - y) <=? 2)
                && (Z.abs (Z.of_nat c - x) <=? 2))%Z
            then intensity else 0).
Proof.
  intros Htp Hw Hh Hshape x y.
  pose proof (randint_range tp Htp k 10 (width - 10) ltac:(lia)) as Hx.
  pose proof (randint_range tp Htp (k + 1) 10 (height - 10) ltac:(lia)) as Hy.
  fold x in Hx; fold y in Hy.
  destruct (rows_of_shape R canvas _ _ Hshape) as [Hlen Hrows].
  assert (H0 : shape0 canvas = height) by (unfold shape0; lia).
  assert (H1 : shape1 canvas = width).
  { destruct canvas as [|row canvas]; [cbn in Hlen; lia|].
    inversion Hrows as [|? ? Hrow _]; subst; cbn; lia. }
  change (5 / 2)%Z with 2%Z.
  repeat split.
  - unfold np_random_randint; destruct (Z.ltb_spec 10 (width - 10));
      [reflexivity | lia].
  - unfold np_random_randint; destruct (Z.ltb_spec 10 (height - 10));
      [reflexivity | lia].
  - unfold region_in_bounds; rewrite H0, H1; change (5 / 2)%Z with 2%Z.
    destruct (Z.leb_spec 0 (y - 2)), (Z.ltb_spec (y + 2) height),
      (Z.leb_spec 0 (x - 2)), (Z.ltb_spec (x + 2) width);
      try reflexivity; lia.
  - intros r c old Hold; unfold pixel in Hold.
    destruct (nth_error canvas r) as [row|] eqn:Hrow; [|discriminate].
    rewrite (pixel_heat_source_stamp canvas x y intensity 5 r c row old
               Hrow Hold).
    change (5 / 2)%Z with 2%Z.
    assert (Hr : (r < length canvas)%nat) by (apply nth_error_Some; congruence).
    assert (Hc : (c < length row)%nat) by (apply nth_error_Some; congruence).
    rewrite !thermal_facts.in_slice_nonneg by (unfold shape0; lia).
    do 2 f_equal.
    destruct (Z.leb_spec (y - 2) (Z.of_nat r)),
      (Z.ltb_spec (Z.of_nat r) (y + 2 + 1)),
      (Z.leb_spec (x - 2) (Z.of_nat c)),
      (Z.ltb_spec (Z.of_nat c) (x + 2 + 1)),
      (Z.leb_spec (Z.abs (Z.of_nat r - y)) 2),
      (Z.leb_spec (Z.abs (Z.of_nat c - x)) 2);
      try reflexivity; lia.
Qed.

Lemma source_stamp_inside_canvas_witness :
  np_random_randint constant_tape 0 10 (21 - 10)
  = Ok (tape_randint constant_tape 0 10 (21 - 10)) /\
  np_random_randint constant_tape (0 + 1) 10 (21 - 10)
  = Ok (tape_randint constant_tape (0 + 1) 10 (21 - 10)) /\
  region_in_bounds (zeros 21 21)
    (tape_randint constant_tape 0 10 (21 - 10))
    (tape_randint constant_tape (0 + 1) 10 (21 - 10)) 5 = true /\
  forall (r c : nat) (old : R),
    pixel (zeros 21 21) r c = Some old ->
    pixel (heat_source_stamp (zeros 21 21)
             (tape_randint constant_tape 0 10 (21 - 10))
             (tape_randint constant_tape (0 + 1) 10 (21 - 10)) 200 5) r c
    = Some (if ((Z.abs (Z.of_nat r
                        - tape_randint constant_tape (0 + 1) 10 (21 - 10))
                 <=? 2)
                && (Z.abs (Z.of_nat c
                           - tape_randint constant_tape 0 10 (21 - 10))
                    <=? 2))%Z
            then 200 else 0).
Proof.
  apply (source_stamp_inside_canvas constant_tape 21 21 (zeros 21 21) 200 0).
  - exact bezier_facts.constant_tape_ok.
  - lia.
  - lia.
  - reflexivity.
Defined.

(** *** A stamp whose slice starts before the canvas *)

Lemma mapi_from_id {A : Type} (f : Z -> A -> A) (l : list A) :
  (forall i x, In x l -> f i x = x) -> forall i, mapi_from f i l = l.
Proof.
  induction l as [|x l IH]; intros Hf i; cbn [mapi_from]; [reflexivity|].
  rewrite Hf by now left.
  rewrite IH; [reflexivity|].
  intros j y Hy; apply Hf; now right.
Qed.

Lemma in_slice_wrapped (start stop len i : Z) :
  (start < 0)%Z -> (0 <= stop <= start + len)%Z ->
  in_slice start stop len i = false.
Proof.
  intros Hs Ht; unfold in_slice, slice_bound.
  destruct (Z.ltb_spec start 0); [|lia].
  destruct (Z.ltb_spec stop 0); [lia|].
  destruct (Z.leb_spec (Z.max (start + len) 0) i); [|reflexivity].
  destruct (Z.ltb_spec i (Z.min stop len)); [lia | reflexivity].
Qed.

(** A negative slice start counts from the far end of the axis.  When the
    centre of a source is less than [size // 2] from the top (or the left)
    of a canvas that is at least [2 * (size // 2) + 1] high (or wide), the
    slice is empty and [generate_heat_source] stamps nothing at all: the
    buffer it hands to the filter is all zero. *)
Theorem stamp_before_canvas_is_empty (heatmap : buffer) (x y : Z)
    (intensity : R) (size : Z) :
  ((y - size / 2 < 0)%Z /\
   (0 <= y + size / 2 + 1 <= y - size / 2 + shape0 heatmap)%Z)
  \/
  ((x - size / 2 < 0)%Z /\ (0 <= x + size / 2 + 1)%Z /\
   Forall (fun row =>
             (x + size / 2 + 1 <= x - size / 2 + Z.of_nat (length row))%Z)
     heatmap) ->
  heat_source_stamp heatmap x y intensity size = np_zeros_like heatmap.
Proof.
  intros Hcase; unfold heat_source_stamp, assign_slice2.
  apply mapi_from_id; intros i row Hrow.
  destruct Hcase as [[Hs Ht] | (Hs & Ht & Hrows)].
  - rewrite in_slice_wrapped; [reflexivity | assumption |].
    unfold shape0, np_zeros_like in *; now rewrite length_map.
  - destruct (in_slice _ _ _ i); [|reflexivity].
    apply mapi_from_id; intros j old _.
    rewrite in_slice_wrapped; [reflexivity | assumption |].
    unfold np_zeros_like in Hrow; apply in_map_iff in Hrow.
    destruct Hrow as (row0 & <- & Hrow0); rewrite length_map.
    rewrite Forall_forall in Hrows; specialize (Hrows row0 Hrow0); lia.
Qed.

Lemma stamp_before_canvas_is_empty_witness :
  heat_source_stamp (zeros 6 6) 3 1 200 5 = np_zeros_like (zeros 6 6).
Proof.
  apply (stamp_before_canvas_is_empty (zeros 6 6) 3 1 200 5).
  left; cbn; lia.
Defined.

(** *** An all-zero sum *)

(** When the sum of the two normalised buffers is entirely zero, the final
    rescale is skipped and the returned heatmap is entirely zero. *)
Theorem zero_combined_gives_zero_heatmap
    (gaussian_filter : buffer -> R -> buffer) (tp : Tape)
    (width height num_sources num_edges : Z) (edge_sigma source_sigma : R)
    (k : nat) (combined : buffer) :
  combined_heatmap gaussian_filter tp width height num_sources num_edges
    edge_sigma source_sigma k = Ok combined ->
  concat combined <> [] ->
  (forall v, In v (concat combined) -> v = 0) ->
  generate_thermal_heatmap gaussian_filter tp width height num_sources
    num_edges edge_sigma source_sigma k
  = Ok (map (map (fun _ => 0%Z)) combined).
Proof.
  intros Hc Hne Hz; unfold generate_thermal_heatmap; rewrite Hc; cbn [bind].
  destruct (thermal_facts.buffer_max_defined combined Hne) as [m Hm].
  destruct (thermal_facts.buffer_max_spec combined m Hm) as [Hin _].
  unfold final_rescale; rewrite Hm; cbn [bind].
  destruct (Req_dec_T m 0) as [_ | Hm0]; [|elim Hm0; now apply Hz].
  f_equal; apply map_ext_in; intros row Hrow.
  apply map_ext_in; intros v Hv.
  rewrite (Hz v); [apply thermal_facts.astype_uint8_clip_0|].
  apply in_concat; exists row; split; assumption.
Qed.

Lemma zero_combined_gives_zero_heatmap_witness :
  generate_thermal_heatmap identity_filter constant_tape 2 1 0 0 5 50 0
  = Ok (map (map (fun _ => 0%Z)) (zeros 1 2)).
Proof.
  apply (zero_combined_gives_zero_heatmap identity_filter constant_tape
           2 1 0 0 5 50 0 (zeros 1 2)).
  - unfold combined_heatmap, add_random_edges.
    rewrite thermal_facts.np_zeros_nonneg by lia; cbn [bind].
    change (Z.to_nat 0) with 0%nat; cbn [for_range bind fst].
    change (Z.to_nat 1) with 1%nat; change (Z.to_nat 2) with 2%nat.
    rewrite thermal_facts.np_zeros_like_zeros; unfold identity_filter.
    rewrite thermal_facts.normalize_zeros by lia; cbn [bind].
    now rewrite thermal_facts.buffer_add_zeros.
  - discriminate.
  - apply thermal_facts.in_concat_zeros.
Defined.

End thermal_more.
